(** * The intent service of ovos-core: utterance dispatch, sessions, context

    A shallow embedding of [ovos_core/intent_services/__init__.py]
    (class [IntentService]) and the properties of its dispatch pipeline,
    session validation, language disambiguation and context handlers.

    Python objects are modelled as follows.
    - A message is a record of its type, its [data] dict and its [context]
      dict; dicts with string keys are [gmap string Value].  The handler
      mutates the one message object it was given, which is modelled by
      rebinding the message value along the handler.
    - Sessions are mutable objects shared through [SessionManager]; a session
      reference is its id, and every read or write of a session attribute goes
      through the store, so that aliasing is preserved.
    - Effects (the bus, the log, the session store, the clock, the calls made
      to pipeline stages and the state of the external plugins) are threaded
      through a state-and-exception monad; state changes made before an
      exception is raised persist, as they do in Python.
    - Exceptions are instances of Python's [Exception]. *)

From Stdlib Require Import ZArith QArith DecimalString.
From stdpp Require Import gmap strings list fin_maps.

Local Open Scope string_scope.
Local Open Scope Z_scope.
Local Open Scope list_scope.
Set Warnings "-register-all".

(** ** Values carried by messages *)

Inductive Value : Type :=
| VNone
| VBool (b : bool)
| VInt (z : Z)
| VStr (s : string)
| VList (l : list Value)
| VDict (d : list (string * Value)).

(** Python truthiness, as used by [if x:] and [x or y]. *)
Definition truthy (v : Value) : bool :=
  match v with
  | VNone => false
  | VBool b => b
  | VInt z => negb (z =? 0)
  | VStr s => negb (String.eqb s "")
  | VList l => match l with [] => false | _ => true end
  | VDict d => match d with [] => false | _ => true end
  end.

(** [x or y] *)
Definition py_or (x y : Value) : Value := if truthy x then x else y.

(** [d.get(k)] on the items of a dict. *)
Fixpoint item_of {A} (k : string) (d : list (string * A)) : option A :=
  match d with
  | [] => None
  | (k', v) :: d' => if String.eqb k k' then Some v else item_of k d'
  end.

(** Python's [a == b]; [a != b] is its negation.  [bool] is a subclass of
    [int]: [True == 1] and [False == 0].  Lists are equal when they have the
    same length and equal items, position by position.  Dicts are equal when
    they have the same keys with equal values, in whatever order the items
    come (a [VDict] lists every key once, as a dict holds it).  Values of
    other kinds are different. *)
Fixpoint value_eqb (a b : Value) {struct a} : bool :=
  match a, b with
  | VNone, VNone => true
  | VBool x, VBool y => Bool.eqb x y
  | VBool x, VInt y => ((if x then 1 else 0) =? y)
  | VInt x, VBool y => (x =? (if y then 1 else 0))
  | VInt x, VInt y => (x =? y)
  | VStr x, VStr y => String.eqb x y
  | VList xs, VList ys =>
      (fix go (xs ys : list Value) {struct xs} : bool :=
         match xs, ys with
         | [], [] => true
         | x :: xs', y :: ys' => value_eqb x y && go xs' ys'
         | _, _ => false
         end) xs ys
  | VDict xs, VDict ys =>
      Nat.eqb (length xs) (length ys) &&
      (fix go (xs : list (string * Value)) {struct xs} : bool :=
         match xs with
         | [] => true
         | (k, x) :: xs' =>
             match item_of k ys with
             | Some y => value_eqb x y
             | None => false
             end && go xs'
         end) xs
  | _, _ => false
  end.

(** [ovos_bus_client.message.Message] *)
Record Message : Type := mkMessage {
  msg_type : string;
  data : gmap string Value;
  context : gmap string Value
}.

(** [d.get(k)] and [d.get(k, dflt)] *)
Definition dict_get (d : gmap string Value) (k : string) : Value :=
  default VNone (d !! k).
Definition dict_get_or (d : gmap string Value) (k : string) (dflt : Value) : Value :=
  default dflt (d !! k).

Definition set_data (k : string) (v : Value) (m : Message) : Message :=
  mkMessage (msg_type m) (<[k := v]> (data m)) (context m).
Definition set_context (k : string) (v : Value) (m : Message) : Message :=
  mkMessage (msg_type m) (data m) (<[k := v]> (context m)).
Definition with_context (c : gmap string Value) (m : Message) : Message :=
  mkMessage (msg_type m) (data m) c.

(** [IntentMatch = namedtuple('IntentMatch', ['intent_service', 'intent_type',
    'intent_data', 'skill_id', 'utterance'])] *)
Record IntentMatch : Type := mkIntentMatch {
  intent_service : string;
  intent_type : option string;
  intent_data : gmap string Value;
  skill_id : option string;
  utterance : string
}.

(** Exceptions. [KeyError] is what a dict subscript raises on a missing key;
    [Raised] stands for any exception coming out of a collaborator. *)
Inductive PyExc : Type :=
| KeyError (key : string)
| Raised (what : string).

(** ** The matcher functions of the pipeline *)

Inductive Engine : Type := PadatiousMatcher | PadaciosoService.

Inductive Matcher : Type :=
| converse_with_skills
| match_high (e : Engine)
| match_medium (e : Engine)
| match_low (e : Engine)
| adapt_match_intent
| common_qa_match
| fallback_high_prio
| fallback_medium_prio
| fallback_low_prio.

(** What one call of a matcher did. *)
Inductive StageOutcome : Type :=
| Declined
| Matched (m : IntentMatch)
| Faulted (e : PyExc).

Definition outcome_of (r : PyExc + option IntentMatch) : StageOutcome :=
  match r with
  | inl e => Faulted e
  | inr None => Declined
  | inr (Some m) => Matched m
  end.

(** ** Sessions and the context stack *)

(** The entity dict built by [handle_add_context]:
    [{'confidence', 'data', 'match', 'key', 'origin'}]. *)
Record Entity : Type := mkEntity {
  confidence : Q;
  entity_data : list (string * Value);
  entity_match : string;
  key : string;
  origin : Value
}.

(** A session record; its [session_id] is the key under which the store
    holds it. *)
Record Session : Type := mkSession {
  lang : string;
  active_skills : list (string * Z);
  context_stack : list Entity;
  pipeline : list string;
  expiry_deadline : Z
}.

(** ** Log records *)

Inductive LogRecord : Type :=
| LogReplacedLang (default_lang k v : string)           (* LOG.info *)
| LogIgnoringLang (k v : string)                         (* LOG.warning *)
| LogPadatiousUnavailable                                (* LOG.warning *)
| LogUtterancesTransformed (original utterances : Value) (* LOG.debug *)
| LogMatchingTook                                        (* LOG.debug *)
| LogLocaleFailure (lang : string)                       (* LOG.exception *)
| LogException (err : PyExc).                            (* LOG.exception *)

(** ** Events on the bus *)

Inductive BusEvent : Type :=
| Emit (m : Message)               (* self.bus.emit(m) *)
| SessionSync (session_data : Value). (* the broadcast of SessionManager.sync *)

Fixpoint emitted (evs : list BusEvent) : list Message :=
  match evs with
  | [] => []
  | Emit m :: evs' => m :: emitted evs'
  | SessionSync _ :: evs' => emitted evs'
  end.

(** ** The collaborators of the intent service

    Everything the intent service imports from other packages and only calls:
    the locale helpers of [ovos_config.locale], [get_message_lang], the
    transformer plugins, the pipeline matchers, the configuration, [str] and
    the serialisation of messages and sessions.  The collaborators that can
    have effects or raise act on a state [X] of their own. *)

Record Collaborators (X : Type) : Type := mkCollaborators {
  (* ovos_bus_client.util.get_message_lang(message) *)
  get_message_lang : Message -> string;
  (* ovos_config.locale.get_valid_languages() *)
  get_valid_languages : list string;
  (* ovos_config.locale.get_full_lang_code(lang) *)
  get_full_lang_code : Value -> string;
  (* ovos_config.locale.setup_locale(lang) *)
  setup_locale : string -> X -> (PyExc + unit) * X;
  (* self.utterance_plugins.transform(utterances, context) *)
  utterance_plugins_transform :
    Value -> gmap string Value -> X ->
    (PyExc + (Value * gmap string Value)) * X;
  (* self.metadata_plugins.transform(context) *)
  metadata_plugins_transform :
    gmap string Value -> X -> (PyExc + gmap string Value) * X;
  (* match_func(utterances, lang, message) for each matcher *)
  interpret :
    Matcher -> Value -> string -> Message -> X ->
    (PyExc + option IntentMatch) * X;
  (* self.padatious_service is not None *)
  padatious_installed : bool;
  (* Configuration().get('sounds', {}) *)
  config_sounds : gmap string Value;
  (* str(x) *)
  py_str : Value -> string;
  (* Session.serialize(), of the session with the given id *)
  serialize : string -> Session -> Value;
  (* the context of message.reply(...), computed from message.context *)
  reply_context : gmap string Value -> gmap string Value;
  (* the language, pipeline and lifetime of a newly created session *)
  config_lang : string;
  config_pipeline : list string;
  session_ttl : Z
}.

Arguments get_message_lang {X} _ _.
Arguments get_valid_languages {X} _.
Arguments get_full_lang_code {X} _ _.
Arguments setup_locale {X} _ _ _.
Arguments utterance_plugins_transform {X} _ _ _ _.
Arguments metadata_plugins_transform {X} _ _ _.
Arguments interpret {X} _ _ _ _ _ _.
Arguments padatious_installed {X} _.
Arguments config_sounds {X} _.
Arguments py_str {X} _ _.
Arguments serialize {X} _ _ _.
Arguments reply_context {X} _ _.
Arguments config_lang {X} _.
Arguments config_pipeline {X} _.
Arguments session_ttl {X} _.

(** ** The state of the world and the monad of handlers *)

Record World (X : Type) : Type := mkWorld {
  bus : list BusEvent;                     (* events published by the intent
                                              service and by SessionManager,
                                              oldest first *)
  log : list LogRecord;                    (* log records, oldest first *)
  sessions : gmap string Session;          (* SessionManager's records *)
  clock : Z;                               (* time.time() *)
  calls : list (Matcher * StageOutcome);   (* matcher calls, oldest first *)
  plugins : X                              (* the collaborators' own state *)
}.

Arguments mkWorld {X} _ _ _ _ _ _.
Arguments bus {X} _.
Arguments log {X} _.
Arguments sessions {X} _.
Arguments clock {X} _.
Arguments calls {X} _.
Arguments plugins {X} _.

Definition M (X A : Type) : Type := World X -> (PyExc + A) * World X.

Definition ret {X A} (a : A) : M X A := fun w => (inr a, w).

Definition bind {X A B} (c : M X A) (k : A -> M X B) : M X B :=
  fun w =>
    match c w with
    | (inl e, w') => (inl e, w')
    | (inr a, w') => k a w'
    end.

Definition raise {X A} (e : PyExc) : M X A := fun w => (inl e, w).

(** [try: c  except Exception as e: h e] *)
Definition try_except {X A} (c : M X A) (h : PyExc -> M X A) : M X A :=
  fun w =>
    match c w with
    | (inl e, w') => h e w'
    | (inr a, w') => (inr a, w')
    end.

(** The notations [x ← c; k] and [c;; k] of stdpp's monads. *)
#[global] Instance M_ret {X} : MRet (M X) := fun A a => ret a.
#[global] Instance M_bind {X} : MBind (M X) := fun A B k c => bind c k.

Definition gets {X A} (f : World X -> A) : M X A := fun w => (inr (f w), w).
Definition modify {X} (f : World X -> World X) : M X unit := fun w => (inr tt, f w).

(** A call into a collaborator: it runs on the plugins' state and either
    returns or raises. *)
Definition call_ext {X A} (c : X -> (PyExc + A) * X) : M X A :=
  fun w =>
    let '(r, x) := c (plugins w) in
    (r, mkWorld (bus w) (log w) (sessions w) (clock w) (calls w) x).

Definition LOG {X} (r : LogRecord) : M X unit :=
  modify (fun w =>
    mkWorld (bus w) (log w ++ [r]) (sessions w) (clock w) (calls w) (plugins w)).

Definition publish {X} (ev : BusEvent) : M X unit :=
  modify (fun w =>
    mkWorld (bus w ++ [ev]) (log w) (sessions w) (clock w) (calls w) (plugins w)).

(** [self.bus.emit(m)] *)
Definition bus_emit {X} (m : Message) : M X unit := publish (Emit m).

Definition set_sessions {X} (f : gmap string Session -> gmap string Session) : M X unit :=
  modify (fun w =>
    mkWorld (bus w) (log w) (f (sessions w)) (clock w) (calls w) (plugins w)).

(** [when b c]: [if b: c] *)
Definition when {X} (b : bool) (c : M X unit) : M X unit :=
  if b then c else ret tt.

(** [needle in hay] on strings *)
Fixpoint str_contains (needle hay : string) : bool :=
  String.prefix needle hay ||
  match hay with
  | EmptyString => false
  | String _ hay' => str_contains needle hay'
  end.

(** [k in l] on a list of strings *)
Definition str_in (k : string) (l : list string) : bool :=
  existsb (String.eqb k) l.

Section IntentService.

Context {X : Type} (env : Collaborators X).

Abbreviation Py := (M X).

(** ** SessionManager, sessions and the context stack *)

(** Modelled from the spec: [SessionManager] and [Session] belong to
    ovos_bus_client and are missing from the sources.  A session created
    lazily or by a reset of the default session is a fresh record: no active
    skill, an empty context stack, the configured language and pipeline. *)
Definition fresh_session (now : Z) : Session :=
  mkSession (config_lang env) [] [] (config_pipeline env) (now + session_ttl env).

(** Modelled from the spec: the record a session reference points at, "at most
    one in-memory record per session_id", "created lazily on first
    reference". *)
Definition read_session (sid : string) (w : World X) : Session :=
  default (fresh_session (clock w)) (sessions w !! sid).

(** Modelled from the spec: the store keeps the record under its id. *)
Definition write_session (sid : string) (s : Session) : Py unit :=
  set_sessions (fun ss => <[sid := s]> ss).

(** Modelled from the spec: [sess.attr = v] and the like, an update in place of
    the record that the reference points at. *)
Definition update_session (sid : string) (f : Session -> Session) : Py unit :=
  s ← gets (read_session sid);
  write_session sid (f s).

(** Modelled from the spec: the session id an event addresses, [resolve] of
    the Session Store ("optional [context.session_id] addresses the session",
    "default id if none present"). *)
Definition event_session_id (message : Message) : string :=
  match context message !! "session_id" with
  | Some (VStr sid) => sid
  | _ => "default"
  end.

(** Modelled from the spec: [SessionManager.get(message)], "locate or lazily
    create the record addressed by the event's session id". *)
Definition SessionManager_get (message : Message) : Py string :=
  let sid := event_session_id message in
  s ← gets (read_session sid);
  write_session sid s;;
  mret sid.

(** Modelled from the spec: [SessionManager.reset_default_session()], "replace
    it with a fresh record". *)
Definition SessionManager_reset_default_session : Py string :=
  now ← gets clock;
  write_session "default" (fresh_session now);;
  mret "default".

(** Modelled from the spec: [SessionManager.update(sess)], "persist". *)
Definition SessionManager_update (sess : string) : Py unit :=
  s ← gets (read_session sess);
  write_session sess s.

(** Modelled from the spec: [SessionManager.sync(message)], one "resync
    broadcast ... carrying the full serialized session" of the default
    session. *)
Definition SessionManager_sync (message : Message) : Py unit :=
  s ← gets (read_session "default");
  publish (SessionSync (serialize env "default" s)).

(** Modelled from the spec: [sess.expired()], "its deadline has elapsed". *)
Definition expired (sess : string) : Py bool :=
  s ← gets (read_session sess);
  now ← gets clock;
  mret (expiry_deadline s <? now).

(** Modelled from the spec: [sess.touch()], "refresh the deadline". *)
Definition touch (sess : string) : Py unit :=
  now ← gets clock;
  update_session sess (fun s =>
    mkSession (lang s) (active_skills s) (context_stack s) (pipeline s)
              (now + session_ttl env)).

(** Modelled from the spec: [sess.lang = lang], on the [lang] attribute of a
    session. *)
Definition set_lang (sess : string) (l : string) : Py unit :=
  update_session sess (fun s =>
    mkSession l (active_skills s) (context_stack s) (pipeline s)
              (expiry_deadline s)).

(** Modelled from the spec: [self.converse.activate_skill(skill_id,
    message=message)], "push [(skill_id, now)] to the front of
    [active_skills], removing any prior occurrence of the same id". *)
Definition activate_skill (skill : string) (message : Message) : Py unit :=
  sess ← SessionManager_get message;
  now ← gets clock;
  update_session sess (fun s =>
    mkSession (lang s)
              ((skill, now) ::
               List.filter (fun p => negb (String.eqb (fst p) skill)) (active_skills s))
              (context_stack s) (pipeline s) (expiry_deadline s)).

(** Modelled from the spec: an update of [sess.context], the Context Stack of
    a session. *)
Definition set_context_stack (sess : string) (f : list Entity -> list Entity) : Py unit :=
  update_session sess (fun s =>
    mkSession (lang s) (active_skills s) (f (context_stack s)) (pipeline s)
              (expiry_deadline s)).

(** Modelled from the spec: the Context Stack of ovos_bus_client is missing
    from the sources.  It is an "ordered sequence of context entries", the
    most recent first, whose entries are "addressed for removal by key/tag
    rather than position": an entry is addressed by a name when the name is
    its key or the tag of one of its (word, tag) pairs. *)
Definition addressed_by (name : Value) (e : Entity) : bool :=
  value_eqb (VStr (key e)) name ||
  existsb (fun p => value_eqb (snd p) name) (entity_data e).

(** Modelled from the spec: [sess.context.inject_context(entity)]. *)
Definition inject_context (sess : string) (entity : Entity) : Py unit :=
  set_context_stack sess (fun st => entity :: st).

(** Modelled from the spec: [sess.context.remove_context(context)]. *)
Definition remove_context (sess : string) (name : Value) : Py unit :=
  set_context_stack sess (List.filter (fun e => negb (addressed_by name e))).

(** Modelled from the spec: [sess.context.clear_context()]. *)
Definition clear_context (sess : string) : Py unit :=
  set_context_stack sess (fun _ => []).

(** ** IntentService *)

(** [_handle_transformers(self, message)] *)
Definition _handle_transformers (message : Message) : Py Message :=
  let lang := get_message_lang env message in
  let original := dict_get_or (data message) "utterances" (VList []) in
  let message := set_context "lang" (VStr lang) message in
  '(utterances, ctx) ←
     call_ext (utterance_plugins_transform env original (context message));
  let message := with_context ctx message in
  message ←
    (if negb (value_eqb original utterances)
     then LOG (LogUtterancesTransformed original utterances);;
          mret (set_data "utterances" utterances message)
     else mret message);
  ctx ← call_ext (metadata_plugins_transform env (context message));
  mret (with_context ctx message).

Definition lang_keys : list string := ["stt_lang"; "request_lang"; "detected_lang"].

(** The loop [for k in lang_keys: ...] of [disambiguate_lang]; falling out of
    the loop returns [default_lang]. *)
Fixpoint disambiguate_lang_loop (default_lang : string) (valid_langs : list string)
    (keys : list string) (message : Message) : Py string :=
  match keys with
  | [] => mret default_lang
  | k :: keys' =>
      match context message !! k with
      | Some c =>
          let v := get_full_lang_code env c in
          if str_in v valid_langs
          then when (negb (String.eqb v default_lang))
                    (LOG (LogReplacedLang default_lang k v));;
               mret v
          else LOG (LogIgnoringLang k v);;
               disambiguate_lang_loop default_lang valid_langs keys' message
      | None => disambiguate_lang_loop default_lang valid_langs keys' message
      end
  end.

(** [disambiguate_lang(message)] *)
Definition disambiguate_lang (message : Message) : Py string :=
  let default_lang := get_message_lang env message in
  let valid_langs := get_valid_languages env in
  disambiguate_lang_loop default_lang valid_langs lang_keys message.

(** The dict [matchers] of [get_pipeline].  Without padatious,
    [padatious_matcher] is [self.padacioso_service]. *)
Definition padatious_matcher : Engine :=
  if padatious_installed env then PadatiousMatcher else PadaciosoService.

Definition matchers : gmap string Matcher :=
  list_to_map
    [ ("converse", converse_with_skills);
      ("padatious_high", match_high padatious_matcher);
      ("padacioso_high", match_high PadaciosoService);
      ("adapt", adapt_match_intent);
      ("common_qa", common_qa_match);
      ("fallback_high", fallback_high_prio);
      ("padatious_medium", match_medium padatious_matcher);
      ("padacioso_medium", match_medium PadaciosoService);
      ("fallback_medium", fallback_medium_prio);
      ("padatious_low", match_low padatious_matcher);
      ("padacioso_low", match_low PadaciosoService);
      ("fallback_low", fallback_low_prio) ].

(** [[matchers[k] for k in pipeline]]: a missing key raises [KeyError] while
    the list is built. *)
Fixpoint resolve_stages (names : list string) : PyExc + list Matcher :=
  match names with
  | [] => inr []
  | k :: names' =>
      match matchers !! k with
      | None => inl (KeyError k)
      | Some f =>
          match resolve_stages names' with
          | inl e => inl e
          | inr fs => inr (f :: fs)
          end
      end
  end.

(** [[k for k in session.pipeline if k not in skips]] *)
Definition configured_stages (skips : list string) (names : list string) : list string :=
  List.filter (fun k => negb (str_in k skips)) names.

(** [get_pipeline(self, skips=None, session=None)], called with a session *)
Definition get_pipeline (skips : option (list string)) (session : string)
  : Py (list Matcher) :=
  s ← gets (read_session session);
  when (negb (padatious_installed env) &&
        existsb (str_contains "padatious") (pipeline s))
       (LOG LogPadatiousUnavailable);;
  let skips := default [] skips in
  let pipeline := configured_stages skips (pipeline s) in
  match resolve_stages pipeline with
  | inl e => raise e
  | inr fs => mret fs
  end.

(** [match_func(utterances, lang, message)]; the call and what came out of it
    are recorded in [calls]. *)
Definition call_matcher (match_func : Matcher) (utterances : Value) (lang : string)
    (message : Message) : Py (option IntentMatch) :=
  fun w =>
    let '(r, x) := interpret env match_func utterances lang message (plugins w) in
    (r, mkWorld (bus w) (log w) (sessions w) (clock w)
                (calls w ++ [(match_func, outcome_of r)]) x).

(** The loop of [handle_utterance]:
    [match = None; for match_func in pipeline: match = match_func(...);
     if match: break] *)
Fixpoint match_loop (stages : list Matcher) (utterances : Value) (lang : string)
    (message : Message) : Py (option IntentMatch) :=
  match stages with
  | [] => mret None
  | match_func :: stages' =>
      r ← call_matcher match_func utterances lang message;
      match r with
      | Some m => mret (Some m)
      | None => match_loop stages' utterances lang message
      end
  end.

(** Modelled from the spec: [message.forward(msg_type, data)] of
    ovos_bus_client, an event "carrying the original utterance context". *)
Definition forward (message : Message) (ty : string) (d : gmap string Value) : Message :=
  mkMessage ty d (context message).

(** [message.reply(msg_type, data)] of ovos_bus_client; its context is
    computed from the context of the message by the library. *)
Definition reply (message : Message) (ty : string) (d : gmap string Value) : Message :=
  mkMessage ty d (reply_context env (context message)).

(** [send_complete_intent_failure(self, message)] *)
Definition send_complete_intent_failure (message : Message) : Py unit :=
  let sound := dict_get_or (config_sounds env) "error" (VStr "snd/error.mp3") in
  bus_emit (forward message "mycroft.audio.play_sound" {[ "uri" := sound ]});;
  bus_emit (forward message "complete_intent_failure" ∅).

(** [_validate_session(self, message, lang)] *)
Definition _validate_session (message : Message) (lang_ : string) : Py string :=
  sess ← SessionManager_get message;
  sess ←
    (if String.eqb sess "default"
     then
       is_expired ← expired sess;
       '(sess, updated) ←
          (if is_expired : bool
           then sess' ← SessionManager_reset_default_session; mret (sess', true)
           else mret (sess, false));
       s ← gets (read_session sess);
       updated ←
          (if negb (String.eqb lang_ (lang s))
           then set_lang sess lang_;; mret true
           else mret updated);
       when updated (SessionManager_update sess;; SessionManager_sync message);;
       mret sess
     else
       set_lang sess lang_;;
       SessionManager_update sess;;
       mret sess);
  touch sess;;
  mret sess.

(** A string that is neither [None] nor empty. *)
Definition if_truthy (o : option string) : option string :=
  match o with
  | Some s => if String.eqb s "" then None else Some s
  | None => None
  end.

(** [handle_utterance], from the transformers to the stamping of the session
    on the message (the body of the [try] up to [# match]). *)
Definition utterance_setup (message : Message)
  : Py (Message * string * Value * string) :=
  message ← _handle_transformers message;
  lang_ ← disambiguate_lang message;
  try_except (call_ext (setup_locale env lang_))
             (fun e => LOG (LogLocaleFailure lang_));;
  let utterances := dict_get_or (data message) "utterances" (VList []) in
  sess ← _validate_session message lang_;
  s ← gets (read_session sess);
  let message := set_context "session" (serialize env sess s) message in
  mret (message, lang_, utterances, sess).

(** [handle_utterance], [# match]: the pipeline of the session is built and
    its matchers are tried in turn. *)
Definition match_utterance (sess : string) (skips : option (list string))
    (utterances : Value) (lang_ : string) (message : Message)
  : Py (option IntentMatch) :=
  stages ← get_pipeline skips sess;
  match_loop stages utterances lang_ message.

(** [handle_utterance], from [if match:] to the [return]. *)
Definition emit_result (match_ : option IntentMatch) (message : Message)
    (sess : string) : Py (option IntentMatch * gmap string Value) :=
  message ←
    match match_ with
    | Some m =>
        let message := set_data "utterance" (VStr (utterance m)) message in
        message ←
          match if_truthy (skill_id m) with
          | Some skill =>
              activate_skill skill message;;
              mret (set_context "skill_id" (VStr skill) message)
          | None => mret message
          end;
        match if_truthy (intent_type m) with
        | Some ty =>
            let d := intent_data m ∪ data message in
            bus_emit (reply message ty d)
        | None => mret tt
        end;;
        mret message
    | None =>
        send_complete_intent_failure message;;
        mret message
    end;
  when (String.eqb sess "default") (SessionManager_sync message);;
  mret (match_, context message).

(** The body of the [try] of [handle_utterance].  The [Stopwatch] it returns
    third measures wall-clock time and is left out. *)
Definition handle_utterance_try (message : Message)
  : Py (option IntentMatch * gmap string Value) :=
  '(message, lang_, utterances, sess) ← utterance_setup message;
  match_ ← match_utterance sess None utterances lang_ message;
  LOG LogMatchingTook;;
  emit_result match_ message sess.

(** [handle_utterance(self, message)]; [None] is Python's [None], returned
    after the [except] clause. *)
Definition handle_utterance (message : Message)
  : Py (option (option IntentMatch * gmap string Value)) :=
  try_except (r ← handle_utterance_try message; mret (Some r))
             (fun err => LOG (LogException err);; mret None).

(** The entity that [handle_add_context] builds from a message. *)
Definition add_context_entity (message : Message) : Entity :=
  let context_ := dict_get (data message) "context" in
  let word := py_or (dict_get (data message) "word") (VStr "") in
  let origin_ := py_or (dict_get (data message) "origin") (VStr "") in
  let word := match word with VStr s => s | _ => py_str env word end in
  mkEntity 1 [(word, context_)] word word origin_.

(** [handle_add_context(self, message)] *)
Definition handle_add_context (message : Message) : Py unit :=
  let entity := add_context_entity message in
  sess ← SessionManager_get message;
  inject_context sess entity.

(** [handle_remove_context(self, message)] *)
Definition handle_remove_context (message : Message) : Py unit :=
  let context_ := dict_get (data message) "context" in
  if truthy context_
  then sess ← SessionManager_get message; remove_context sess context_
  else mret tt.

(** [handle_clear_context(self, message)] *)
Definition handle_clear_context (message : Message) : Py unit :=
  sess ← SessionManager_get message;
  clear_context sess.

End IntentService.

(** * The intents API and the registries of the intent service *)

(** The session data broadcast by [SessionManager.sync], oldest first. *)
Fixpoint syncs (evs : list BusEvent) : list Value :=
  match evs with
  | [] => []
  | Emit _ :: evs' => syncs evs'
  | SessionSync v :: evs' => v :: syncs evs'
  end.

Definition broadcasts {X} (w : World X) : list Value := syncs (bus w).

(** The matchers of [PadatiousMatcher]. *)
Definition uses_padatious (f : Matcher) : bool :=
  match f with
  | match_high PadatiousMatcher | match_medium PadatiousMatcher
  | match_low PadatiousMatcher => true
  | _ => false
  end.

(** A Python dict with string keys, as a value carried by a message. *)
Definition dict_value (d : gmap string Value) : Value := VDict (map_to_list d).

(** A string attribute that may be [None]. *)
Definition str_or_none (o : option string) : Value :=
  match o with
  | Some s => VStr s
  | None => VNone
  end.

(** [match_func.__name__] *)
Definition matcher_name (f : Matcher) : string :=
  match f with
  | converse_with_skills => "converse_with_skills"
  | match_high _ => "match_high"
  | match_medium _ => "match_medium"
  | match_low _ => "match_low"
  | adapt_match_intent => "match_intent"
  | common_qa_match => "match"
  | fallback_high_prio => "high_prio"
  | fallback_medium_prio => "medium_prio"
  | fallback_low_prio => "low_prio"
  end.

(** The keys of a dict: the hashable values, up to Python's [==], under which
    [True] is [1] and [False] is [0].  Lists and dicts are not hashable. *)
Inductive Key : Type :=
| KNone
| KInt (z : Z)
| KStr (s : string).

#[global] Instance Key_eq_dec : EqDecision Key.
Proof. solve_decision. Defined.

#[global] Instance Key_countable : Countable Key :=
  inj_countable'
    (fun k => match k with
              | KNone => None
              | KInt z => Some (inl z)
              | KStr s => Some (inr s)
              end)
    (fun o => match o with
              | None => KNone
              | Some (inl z) => KInt z
              | Some (inr s) => KStr s
              end)
    (fun k => match k with KNone | KInt _ | KStr _ => eq_refl end).

Definition key_of (v : Value) : option Key :=
  match v with
  | VNone => Some KNone
  | VBool b => Some (KInt (if b then 1 else 0))
  | VInt z => Some (KInt z)
  | VStr s => Some (KStr s)
  | VList _ => None
  | VDict _ => None
  end.

(** [TypeError: unhashable type], raised by a dict on a list or dict key. *)
Definition unhashable : PyExc := Raised "TypeError: unhashable type".

(** The attributes of the intent service that its registration handlers
    update: [self.skill_names] and [self.registered_vocab], with the warnings
    these handlers log. *)
Record Registry : Type := mkRegistry {
  skill_names : gmap Key Value;
  registered_vocab : list (gmap string Value);
  warnings : list string
}.

(** The services that the registration and query handlers call besides the
    pipeline matchers. *)
Record Backends (X : Type) : Type := mkBackends {
  (* self.adapt_service.register_vocabulary(entity_value, entity_type,
                                            alias_of, regex_str, lang) *)
  adapt_register_vocabulary :
    Value -> Value -> Value -> Value -> string -> X -> (PyExc + unit) * X;
  (* self.padacioso_service.calc_intent(utterance): an intent object, given by
     its __dict__, or nothing *)
  padacioso_calc_intent :
    Value -> X -> (PyExc + option (gmap string Value)) * X
}.

Arguments adapt_register_vocabulary {X} _ _ _ _ _ _ _.
Arguments padacioso_calc_intent {X} _ _ _.

(** [k in d] *)
Definition has_key (d : gmap string Value) (k : string) : bool :=
  match d !! k with
  | Some _ => true
  | None => false
  end.

(** [_is_old_style_keyword_message(message)] *)
Definition _is_old_style_keyword_message (message : Message) : bool :=
  negb (has_key (data message) "entity_value") && has_key (data message) "start".

(** [_update_keyword_message(message)]: the message is changed in place, so
    the first assignment stays when the second one raises. *)
Definition _update_keyword_message (message : Message) : (PyExc + unit) * Message :=
  match data message !! "start" with
  | None => (inl (KeyError "start"), message)
  | Some start =>
      let message := set_data "entity_value" start message in
      match data message !! "end" with
      | None => (inl (KeyError "end"), message)
      | Some end_ => (inr tt, set_data "entity_type" end_ message)
      end
  end.

Definition deprecated_keywords : string :=
  "Deprecated: Registering keywords with old message. This will be removed in v22.02.".

(** [update_skill_name_dict(self, message)]: the value assigned is evaluated
    before the key. *)
Definition update_skill_name_dict (message : Message) (self : Registry)
  : (PyExc + unit) * Registry :=
  match data message !! "name" with
  | None => (inl (KeyError "name"), self)
  | Some name =>
      match data message !! "id" with
      | None => (inl (KeyError "id"), self)
      | Some id =>
          match key_of id with
          | None => (inl unhashable, self)
          | Some k =>
              (inr tt,
               mkRegistry (<[k := name]> (skill_names self))
                          (registered_vocab self) (warnings self))
          end
      end
  end.

(** [get_skill_name(self, skill_id)] *)
Definition get_skill_name (self : Registry) (skill_id : Value) : PyExc + Value :=
  match key_of skill_id with
  | None => inl unhashable
  | Some k => inr (default skill_id (skill_names self !! k))
  end.

Section IntentsAPI.

Context {X : Type} (env : Collaborators X) (backends : Backends X).

Abbreviation Py' := (M X).

(** [handle_register_vocab(self, message)]: the message, the registry and the
    state of the services after the call, whether it returns or raises. *)
Definition handle_register_vocab (message : Message) (self : Registry) (x : X)
  : (PyExc + unit) * (Message * Registry * X) :=
  let '(r, message, self) :=
    if _is_old_style_keyword_message message
    then
      let self :=
        mkRegistry (skill_names self) (registered_vocab self)
                   (warnings self ++ [deprecated_keywords]) in
      let '(r, message) := _update_keyword_message message in
      (r, message, self)
    else (inr tt, message, self) in
  match r with
  | inl e => (inl e, (message, self, x))
  | inr _ =>
      let entity_value := dict_get (data message) "entity_value" in
      let entity_type := dict_get (data message) "entity_type" in
      let regex_str := dict_get (data message) "regex" in
      let alias_of := dict_get (data message) "alias_of" in
      let lang_ := get_message_lang env message in
      let '(r, x) :=
        adapt_register_vocabulary backends entity_value entity_type alias_of
                                  regex_str lang_ x in
      match r with
      | inl e => (inl e, (message, self, x))
      | inr _ =>
          (inr tt,
           (message,
            mkRegistry (skill_names self) (registered_vocab self ++ [data message])
                       (warnings self),
            x))
      end
  end.

(** [handle_vocab_manifest(self, message)] *)
Definition handle_vocab_manifest (self : Registry) (message : Message) : Py' unit :=
  bus_emit
    (reply env message "intent.service.adapt.vocab.manifest"
       {[ "vocab" := VList (map dict_value (registered_vocab self)) ]}).

(** The matchers behind the names that [handle_get_intent] skips. *)
Definition converse_or_fallback (f : Matcher) : bool :=
  match f with
  | converse_with_skills | fallback_high_prio | fallback_medium_prio
  | fallback_low_prio => true
  | _ => false
  end.

(** The [skips] of [handle_get_intent]. *)
Definition get_intent_skips : list string :=
  ["converse"; "fallback_high"; "fallback_medium"; "fallback_low"].

(** The intent data that [handle_get_intent] replies with: the intent data of
    the match with four items assigned in turn. *)
Definition intent_reply_data (m : IntentMatch) (ty : string) (match_func : Matcher)
  : gmap string Value :=
  <["handler" := VStr (matcher_name match_func)]>
    (<["skill_id" := str_or_none (skill_id m)]>
       (<["intent_service" := VStr (intent_service m)]>
          (<["intent_name" := VStr ty]> (intent_data m)))).

(** The loop of [handle_get_intent]; [true] when the handler returned from
    inside the loop. *)
Fixpoint get_intent_loop (stages : list Matcher) (utterance : Value) (lang_ : string)
    (message : Message) : Py' bool :=
  match stages with
  | [] => mret false
  | match_func :: stages' =>
      r ← call_matcher env match_func (VList [utterance]) lang_ message;
      match r with
      | Some m =>
          match if_truthy (intent_type m) with
          | Some ty =>
              bus_emit
                (reply env message "intent.service.intent.reply"
                   {[ "intent" := dict_value (intent_reply_data m ty match_func) ]})
          | None => mret tt
          end;;
          mret true
      | None => get_intent_loop stages' utterance lang_ message
      end
  end.

(** [handle_get_intent(self, message)] *)
Definition handle_get_intent (message : Message) : Py' unit :=
  match data message !! "utterance" with
  | None => raise (KeyError "utterance")
  | Some utterance =>
      let lang_ := get_message_lang env message in
      sess ← SessionManager_get env message;
      stages ← get_pipeline env (Some get_intent_skips) sess;
      returned ← get_intent_loop stages utterance lang_ message;
      if returned : bool
      then mret tt
      else bus_emit
             (reply env message "intent.service.intent.reply" {[ "intent" := VNone ]})
  end.

(** The event that answers an intent query. *)
Definition intent_reply (message : Message) (intent : Value) : Message :=
  mkMessage "intent.service.intent.reply" {[ "intent" := intent ]}
            (reply_context env (context message)).

(** [handle_get_adapt(self, message)] *)
Definition handle_get_adapt (message : Message) : Py' unit :=
  match data message !! "utterance" with
  | None => raise (KeyError "utterance")
  | Some utterance =>
      let lang_ := get_message_lang env message in
      intent ← call_matcher env adapt_match_intent (VList [utterance]) lang_ message;
      let intent_data_ :=
        match intent with
        | Some m => dict_value (intent_data m)
        | None => VNone
        end in
      bus_emit
        (reply env message "intent.service.adapt.reply" {[ "intent" := intent_data_ ]})
  end.

(** [handle_get_padatious(self, message)] *)
Definition handle_get_padatious (message : Message) : Py' unit :=
  match data message !! "utterance" with
  | None => raise (KeyError "utterance")
  | Some utterance =>
      let norm := dict_get_or (data message) "norm_utt" utterance in
      intent ← call_ext (padacioso_calc_intent backends utterance);
      intent ←
        match intent with
        | None =>
            if negb (value_eqb norm utterance)
            then call_ext (padacioso_calc_intent backends norm)
            else mret intent
        | Some _ => mret intent
        end;
      let intent_ :=
        match intent with
        | Some d => dict_value d
        | None => VNone
        end in
      bus_emit
        (reply env message "intent.service.padatious.reply" {[ "intent" := intent_ ]})
  end.

End IntentsAPI.

(** * The utterance handler and what it calls

    [handle_utterance] calls methods of the intent service and functions and
    methods of other packages, and every one of these calls may raise.
    [Callees] names them.  [handle_utterance_of] is [handle_utterance],
    lines 283-343, over whatever the callees do; [callees env] are the callees
    as the intent service above has them. *)

Record Callees (X : Type) : Type := mkCallees {
  (* self._handle_transformers(message) *)
  run_handle_transformers : Message -> M X Message;
  (* self.disambiguate_lang(message) *)
  run_disambiguate_lang : Message -> M X string;
  (* setup_locale(lang) *)
  run_setup_locale : string -> M X unit;
  (* self._validate_session(message, lang) *)
  run_validate_session : Message -> string -> M X string;
  (* sess.serialize() *)
  run_serialize : string -> M X Value;
  (* self.get_pipeline(session=sess) *)
  run_get_pipeline : string -> M X (list Matcher);
  (* match_func(utterances, lang, message) *)
  run_match_func :
    Matcher -> Value -> string -> Message -> M X (option IntentMatch);
  (* self.converse.activate_skill(match.skill_id, message=message) *)
  run_activate_skill : string -> Message -> M X unit;
  (* message.reply(match.intent_type, data) *)
  run_reply : Message -> string -> gmap string Value -> M X Message;
  (* self.bus.emit(reply) *)
  run_bus_emit : Message -> M X unit;
  (* self.send_complete_intent_failure(message) *)
  run_send_complete_intent_failure : Message -> M X unit;
  (* SessionManager.sync(message) *)
  run_sync : Message -> M X unit
}.

Arguments run_handle_transformers {X} _ _.
Arguments run_disambiguate_lang {X} _ _.
Arguments run_setup_locale {X} _ _.
Arguments run_validate_session {X} _ _ _.
Arguments run_serialize {X} _ _.
Arguments run_get_pipeline {X} _ _.
Arguments run_match_func {X} _ _ _ _ _.
Arguments run_activate_skill {X} _ _ _.
Arguments run_reply {X} _ _ _ _.
Arguments run_bus_emit {X} _ _.
Arguments run_send_complete_intent_failure {X} _ _.
Arguments run_sync {X} _ _.

Section HandlerOfCallees.

Context {X : Type} (c : Callees X).

(** The body of the [try] up to [# match]; the [try] around [setup_locale] is
    the inner one, lines 291-294. *)
Definition utterance_setup_of (message : Message)
  : M X (Message * string * Value * string) :=
  message ← run_handle_transformers c message;
  lang_ ← run_disambiguate_lang c message;
  try_except (run_setup_locale c lang_)
             (fun e => LOG (LogLocaleFailure lang_));;
  let utterances := dict_get_or (data message) "utterances" (VList []) in
  sess ← run_validate_session c message lang_;
  session_data ← run_serialize c sess;
  let message := set_context "session" session_data message in
  mret (message, lang_, utterances, sess).

(** [match = None; for match_func in pipeline: match = match_func(...);
     if match: break] *)
Fixpoint match_loop_of (stages : list Matcher) (utterances : Value) (lang_ : string)
    (message : Message) : M X (option IntentMatch) :=
  match stages with
  | [] => mret None
  | match_func :: stages' =>
      r ← run_match_func c match_func utterances lang_ message;
      match r with
      | Some m => mret (Some m)
      | None => match_loop_of stages' utterances lang_ message
      end
  end.

(** [# match]: the pipeline is built, then its matchers are tried in turn. *)
Definition match_utterance_of (sess : string) (utterances : Value) (lang_ : string)
    (message : Message) : M X (option IntentMatch) :=
  stages ← run_get_pipeline c sess;
  match_loop_of stages utterances lang_ message.

(** From [if match:] to the [return]. *)
Definition emit_result_of (match_ : option IntentMatch) (message : Message)
    (sess : string) : M X (option IntentMatch * gmap string Value) :=
  message ←
    match match_ with
    | Some m =>
        let message := set_data "utterance" (VStr (utterance m)) message in
        message ←
          match if_truthy (skill_id m) with
          | Some skill =>
              run_activate_skill c skill message;;
              mret (set_context "skill_id" (VStr skill) message)
          | None => mret message
          end;
        match if_truthy (intent_type m) with
        | Some ty =>
            let d := intent_data m ∪ data message in
            reply_ ← run_reply c message ty d;
            run_bus_emit c reply_
        | None => mret tt
        end;;
        mret message
    | None =>
        run_send_complete_intent_failure c message;;
        mret message
    end;
  when (String.eqb sess "default") (run_sync c message);;
  mret (match_, context message).

(** The body of the [try]. *)
Definition handle_utterance_try_of (message : Message)
  : M X (option IntentMatch * gmap string Value) :=
  '(message, lang_, utterances, sess) ← utterance_setup_of message;
  match_ ← match_utterance_of sess utterances lang_ message;
  LOG LogMatchingTook;;
  emit_result_of match_ message sess.

(** [handle_utterance(self, message)] *)
Definition handle_utterance_of (message : Message)
  : M X (option (option IntentMatch * gmap string Value)) :=
  try_except (r ← handle_utterance_try_of message; mret (Some r))
             (fun err => LOG (LogException err);; mret None).

End HandlerOfCallees.

(** The callees of [handle_utterance] in the intent service above. *)
Definition callees {X} (env : Collaborators X) : Callees X :=
  {| run_handle_transformers := _handle_transformers env;
     run_disambiguate_lang := disambiguate_lang env;
     run_setup_locale := fun lang_ => call_ext (setup_locale env lang_);
     run_validate_session := _validate_session env;
     run_serialize :=
       fun sess => s ← gets (read_session env sess); mret (serialize env sess s);
     run_get_pipeline := get_pipeline env None;
     run_match_func := call_matcher env;
     run_activate_skill := activate_skill env;
     run_reply := fun message ty d => mret (reply env message ty d);
     run_bus_emit := bus_emit;
     run_send_complete_intent_failure := send_complete_intent_failure env;
     run_sync := SessionManager_sync env |}.

(** * Vocabulary of the properties *)

Section Vocabulary.

Context {X : Type} (env : Collaborators X).

(** The messages published with [self.bus.emit], oldest first. *)
Definition published (w : World X) : list Message := emitted (bus w).


(** [keeps f c]: running [c] leaves the observation [f] of the world as it
    was, whether [c] returns or raises. *)
Definition keeps {A B} (f : World X -> B) (c : M X A) : Prop :=
  forall w, f (snd (c w)) = f w.


(** The world after one more log record. *)
Definition logged (r : LogRecord) (w : World X) : World X :=
  mkWorld (bus w) (log w ++ [r]) (sessions w) (clock w) (calls w) (plugins w).


(** ** Dispatch *)

Definition declined (c : Matcher * StageOutcome) : Prop := snd c = Declined.

(** A short-circuit run over [stages]: the matchers invoked are the first
    ones of [stages], in order; all of them declined, except the last one when
    the run ends on a match or on a fault; a run without match went through
    all of [stages]. *)
Definition first_match_run (stages : list Matcher)
    (invoked : list (Matcher * StageOutcome)) (r : PyExc + option IntentMatch) : Prop :=
  map fst invoked `prefix_of` stages ∧
  match r with
  | inr (Some m) =>
      ∃ before f, invoked = before ++ [(f, Matched m)] ∧ Forall declined before
  | inr None => map fst invoked = stages ∧ Forall declined invoked
  | inl e =>
      ∃ before f, invoked = before ++ [(f, Faulted e)] ∧ Forall declined before
  end.


(** What the matchers [fs] answer when they are asked one after the other,
    all of them, about [utterances] in [lang_] for [message], from the
    plugins' state [x]: each matcher with the outcome of its call, and the
    state the plugins are left in. *)
Fixpoint ask_in_turn (fs : list Matcher) (utterances : Value) (lang_ : string)
    (message : Message) (x : X) : list (Matcher * StageOutcome) * X :=
  match fs with
  | [] => ([], x)
  | f :: fs' =>
      let '(r, x1) := interpret env f utterances lang_ message x in
      let '(rest, x2) := ask_in_turn fs' utterances lang_ message x1 in
      ((f, outcome_of r) :: rest, x2)
  end.


(** ** The locale setup *)

(** The world after the [try] around [setup_locale] of a handler with callees
    [c]: a fault has been logged by the inner [except]. *)
Definition after_setup_locale (c : Callees X) (l : string) (w : World X) : World X :=
  match run_setup_locale c l w with
  | (inl _, w') => logged (LogLocaleFailure l) w'
  | (inr _, w') => w'
  end.


(** ** Language candidates *)

(** The candidates of a message, by decreasing precedence: for each of the
    keys [lang_keys] present in the context, the key and the full language
    code of its value. *)
Definition candidates_of (keys : list string) (message : Message) : list (string * string) :=
  omap (fun k => (fun c => (k, get_full_lang_code env c)) <$> context message !! k) keys.

Definition lang_candidates (message : Message) : list (string * string) :=
  candidates_of lang_keys message.

Definition ignoring (kv : string * string) : LogRecord := LogIgnoringLang (fst kv) (snd kv).


(** The [try] around [setup_locale] in [handle_utterance]. *)
Definition guarded_setup_locale (l : string) : M X unit :=
  try_except (call_ext (setup_locale env l)) (fun _ => LOG (LogLocaleFailure l)).


(** ** Statements that do not hold of the handlers

    Four statements about the handlers that the code does not satisfy.  Each
    is refuted on a sample run at the end, and the properties below give the
    statement that holds instead. *)

(** A stage that raises sends the utterance down the failure path: the
    exception is caught and logged and the two failure events are
    published. *)
Definition stage_fault_notifies (message : Message) (w : World X) : Prop :=
  let run := handle_utterance env message w in
  let sound := dict_get_or (config_sounds env) "error" (VStr "snd/error.mp3") in
  forall invoked f e,
    calls (snd run) = calls w ++ invoked -> (f, Faulted e) ∈ invoked ->
    (∃ r, fst run = inr r) ∧
    LogException e ∈ log (snd run) ∧
    ∃ ctx,
      published (snd run) =
        published w ++
        [mkMessage "mycroft.audio.play_sound" {[ "uri" := sound ]} ctx;
         mkMessage "complete_intent_failure" ∅ ctx].

(** A match with an intent type that is not [None] makes the handler publish
    exactly one event, addressed to that intent type; a match without intent
    type publishes nothing. *)
Definition typed_match_publishes (message : Message) (w : World X) : Prop :=
  let run := handle_utterance env message w in
  forall m ctx,
    fst run = inr (Some (Some m, ctx)) ->
    match intent_type m with
    | Some ty =>
        ∃ ev, published (snd run) = published w ++ [ev] ∧ msg_type ev = ty
    | None => published (snd run) = published w
    end.

(** An exception raised by the locale setup ends up in the outermost [except]
    and the handler returns [None]. *)
Definition locale_fault_returns_none (message : Message) (w : World X) : Prop :=
  let run := handle_utterance env message w in
  forall e,
    (forall l x, fst (setup_locale env l x) = inl e) ->
    (∃ m w1, _handle_transformers env message w = (inr m, w1)) ->
    fst run = inr None ∧ LogException e ∈ log (snd run).

(** The entity of an add-context message, with the word coerced to a string
    whenever it is present and not a string, and the origin taken as it is
    whenever it is present. *)
Definition entity_with_coerced_word (message : Message) : Entity :=
  let word :=
    match data message !! "word" with
    | None => ""
    | Some (VStr s) => s
    | Some v => py_str env v
    end in
  let origin_ :=
    match data message !! "origin" with
    | None => VStr ""
    | Some v => v
    end in
  mkEntity 1 [(word, dict_get (data message) "context")] word word origin_.

End Vocabulary.

(** * Sample collaborators and runs *)

(** A stand-in for [str] on scalars. *)
Definition sample_str (v : Value) : string :=
  match v with
  | VNone => "None"
  | VBool true => "True"
  | VBool false => "False"
  | VInt z => NilZero.string_of_int (Z.to_int z)
  | VStr s => s
  | VList _ => "[...]"
  | VDict _ => "{...}"
  end.

(** Collaborators without state: the transformers change nothing, each
    matcher answers as [stage] says and the locale setup as [locale] says. *)
Definition sample_env (stage : Matcher -> PyExc + option IntentMatch)
    (locale : string -> PyExc + unit) : Collaborators unit :=
  {| get_message_lang :=
       fun m => match data m !! "lang" with Some (VStr l) => l | _ => "en-us" end;
     get_valid_languages := ["en-us"; "es-es"];
     get_full_lang_code :=
       fun v =>
         match v with
         | VStr "en" => "en-us"
         | VStr "es" => "es-es"
         | VStr s => s
         | _ => "en-us"
         end;
     setup_locale := fun l x => (locale l, x);
     utterance_plugins_transform := fun u c x => (inr (u, c), x);
     metadata_plugins_transform := fun c x => (inr c, x);
     interpret := fun f _ _ _ x => (stage f, x);
     padatious_installed := true;
     config_sounds := ∅;
     py_str := sample_str;
     serialize :=
       fun sid s => VDict [("session_id", VStr sid); ("lang", VStr (lang s))];
     reply_context := fun c => c;
     config_lang := "en-us";
     config_pipeline :=
       ["converse"; "padatious_high"; "adapt"; "common_qa"; "fallback_high";
        "padatious_medium"; "fallback_medium"; "padatious_low"; "fallback_low"];
     session_ttl := 600 |}.

Definition locale_ok (l : string) : PyExc + unit := inr tt.
Definition locale_fails (l : string) : PyExc + unit := inl (Raised "locale").

Definition all_decline (f : Matcher) : PyExc + option IntentMatch := inr None.

Definition adapt_answers (m : IntentMatch) (f : Matcher) : PyExc + option IntentMatch :=
  match f with
  | adapt_match_intent => inr (Some m)
  | _ => inr None
  end.

Definition adapt_faults (f : Matcher) : PyExc + option IntentMatch :=
  match f with
  | adapt_match_intent => inl (Raised "adapt")
  | _ => inr None
  end.

Definition hello_match : IntentMatch :=
  mkIntentMatch "Adapt" (Some "skill:HelloIntent") {[ "greeting" := VStr "hello" ]}
                (Some "skill") "hello".

Definition untyped_match : IntentMatch :=
  mkIntentMatch "Adapt" (Some "") ∅ None "hello".

Definition hello_utterances : Value := VList [VStr "hello"].

Definition hello_utterance : Message :=
  mkMessage "recognizer_loop:utterance" {[ "utterances" := hello_utterances ]} ∅.

Definition new_world : World unit := mkWorld [] [] ∅ 0 [] tt.

(** A world whose default session has the given pipeline, deadline and active
    skills, at the given time. *)
Definition world_with_default (names : list string) (deadline now : Z)
    (skills : list (string * Z)) : World unit :=
  mkWorld [] [] {[ "default" := mkSession "en-us" skills [] names deadline ]} now [] tt.

Definition greeting_env : Collaborators unit := sample_env (adapt_answers hello_match) locale_ok.
Definition untyped_env : Collaborators unit := sample_env (adapt_answers untyped_match) locale_ok.
Definition silent_env : Collaborators unit := sample_env all_decline locale_ok.
Definition faulty_env : Collaborators unit := sample_env adapt_faults locale_ok.
Definition no_locale_env : Collaborators unit :=
  sample_env (adapt_answers hello_match) locale_fails.

Definition short_pipeline : list string := ["converse"; "adapt"; "fallback_low"].
Definition short_stages : list Matcher :=
  [converse_with_skills; adapt_match_intent; fallback_low_prio].

Definition short_world : World unit := world_with_default short_pipeline 100 0 [].
Definition bogus_world : World unit :=
  world_with_default ["adapt"; "bogus"; "fallback_low"] 100 0 [].
Definition expired_world : World unit :=
  world_with_default short_pipeline 100 200 [("skill", 5)].
Definition unexpired_world : World unit :=
  world_with_default short_pipeline 100 50 [("skill", 5)].

Definition spanish_utterance : Message :=
  mkMessage "recognizer_loop:utterance" {[ "utterances" := hello_utterances ]}
            {[ "stt_lang" := VStr "es-es"; "request_lang" := VStr "en-us" ]}.

Definition guest_utterance : Message :=
  mkMessage "recognizer_loop:utterance" {[ "utterances" := hello_utterances ]}
            {[ "session_id" := VStr "guest" ]}.

Definition kitchen_add : Message :=
  mkMessage "add_context" {[ "context" := VStr "kitchen"; "word" := VStr "there" ]} ∅.
Definition kitchen_remove : Message :=
  mkMessage "remove_context" {[ "context" := VStr "kitchen" ]} ∅.
Definition bedroom_add : Message :=
  mkMessage "add_context" {[ "context" := VStr "bedroom"; "word" := VStr "here" ]} ∅.
Definition clear_all : Message := mkMessage "clear_context" ∅ ∅.
Definition zero_word_add : Message :=
  mkMessage "add_context" {[ "context" := VStr "kitchen"; "word" := VInt 0 ]} ∅.

(** The handled message once [utterance_setup] has stamped the language and
    the session of a first utterance on it. *)
Definition stamped_hello : Message :=
  mkMessage "recognizer_loop:utterance" {[ "utterances" := hello_utterances ]}
    {[ "lang" := VStr "en-us";
       "session" := VDict [("session_id", VStr "default"); ("lang", VStr "en-us")] ]}.

(** Samples for the intents API and the registries. *)

Definition empty_registry : Registry := mkRegistry ∅ [] [].

(** Services without state: every registration is accepted, and padacioso
    knows one sentence. *)
Definition light_intent : gmap string Value :=
  {[ "name" := VStr "light.on"; "conf" := VInt 1 ]}.

Definition sample_backends : Backends unit :=
  {| adapt_register_vocabulary := fun _ _ _ _ _ x => (inr tt, x);
     padacioso_calc_intent :=
       fun u x =>
         (if value_eqb u (VStr "turn on the light")
          then inr (Some light_intent) else inr None, x) |}.

Definition old_style_keyword : Message :=
  mkMessage "register_vocab"
            {[ "start" := VStr "hello"; "end" := VStr "HelloKeyword" ]} ∅.

Definition old_style_without_end : Message :=
  mkMessage "register_vocab" {[ "start" := VStr "hello" ]} ∅.

Definition skill_announcement : Message :=
  mkMessage "mycroft.skills.loaded"
            {[ "id" := VStr "skill-hello"; "name" := VStr "Hello" ]} ∅.

Definition intent_query : Message :=
  mkMessage "intent.service.intent.get" {[ "utterance" := VStr "hello" ]} ∅.

Definition misspelt_query : Message :=
  mkMessage "intent.service.padatious.get"
            {[ "utterance" := VStr "turn on teh light";
               "norm_utt" := VStr "turn on the light" ]} ∅.

Definition manifest_query : Message :=
  mkMessage "intent.service.adapt.vocab.manifest.get" ∅ ∅.

(** Collaborators whose utterance transformers raise. *)
Definition broken_transformer_env : Collaborators unit :=
  {| get_message_lang := get_message_lang silent_env;
     get_valid_languages := get_valid_languages silent_env;
     get_full_lang_code := get_full_lang_code silent_env;
     setup_locale := setup_locale silent_env;
     utterance_plugins_transform := fun _ _ x => (inl (Raised "transformer"), x);
     metadata_plugins_transform := metadata_plugins_transform silent_env;
     interpret := interpret silent_env;
     padatious_installed := padatious_installed silent_env;
     config_sounds := config_sounds silent_env;
     py_str := py_str silent_env;
     serialize := serialize silent_env;
     reply_context := reply_context silent_env;
     config_lang := config_lang silent_env;
     config_pipeline := config_pipeline silent_env;
     session_ttl := session_ttl silent_env |}.

(** The callees of the greeting service, with a converse service that raises
    when a skill is activated. *)
Definition clumsy_callees : Callees unit :=
  {| run_handle_transformers := run_handle_transformers (callees greeting_env);
     run_disambiguate_lang := run_disambiguate_lang (callees greeting_env);
     run_setup_locale := run_setup_locale (callees greeting_env);
     run_validate_session := run_validate_session (callees greeting_env);
     run_serialize := run_serialize (callees greeting_env);
     run_get_pipeline := run_get_pipeline (callees greeting_env);
     run_match_func := run_match_func (callees greeting_env);
     run_activate_skill := fun _ _ => raise (Raised "converse");
     run_reply := run_reply (callees greeting_env);
     run_bus_emit := run_bus_emit (callees greeting_env);
     run_send_complete_intent_failure :=
       run_send_complete_intent_failure (callees greeting_env);
     run_sync := run_sync (callees greeting_env) |}.

(** A padacioso that knows the value [True] only, and a query whose
    utterance is [1] and whose normalised utterance is [True]. *)
Definition strict_backends : Backends unit :=
  {| adapt_register_vocabulary := fun _ _ _ _ _ x => (inr tt, x);
     padacioso_calc_intent :=
       fun u x =>
         (match u with
          | VBool true => inr (Some light_intent)
          | _ => inr None
          end, x) |}.

Definition numeric_query : Message :=
  mkMessage "intent.service.padatious.get"
            {[ "utterance" := VInt 1; "norm_utt" := VBool true ]} ∅.

(** The world of a first utterance once its session has been validated, and
    once dispatch has found the greeting. *)
Definition validated_world : World unit := world_with_default short_pipeline 600 0 [].

Definition greeted_world : World unit :=
  mkWorld [] [] (sessions validated_world) 0
    [(converse_with_skills, Declined); (adapt_match_intent, Matched hello_match)] tt.

(** * Properties *)

(** ** Running handlers *)

Section Running.

Context {X : Type}.

Lemma run_bind {A B} (c : M X A) (k : A -> M X B) (w : World X) :
  (c ≫= k) w =
  match c w with
  | (inl e, w') => (inl e, w')
  | (inr a, w') => k a w'
  end.
Proof. reflexivity. Qed.

Lemma emitted_app (a b : list BusEvent) : emitted (a ++ b) = emitted a ++ emitted b.
Proof.
  induction a as [|[m|v] a IH]; simpl; [reflexivity | f_equal; exact IH | exact IH].
Qed.

Lemma keeps_ret {A B} (f : World X -> B) (a : A) : keeps f (mret a : M X A).
Proof. intros w. reflexivity. Qed.

Lemma keeps_raise {A B} (f : World X -> B) (e : PyExc) : keeps f (raise e : M X A).
Proof. intros w. reflexivity. Qed.

Lemma keeps_gets {A B} (f : World X -> B) (g : World X -> A) : keeps f (gets g).
Proof. intros w. reflexivity. Qed.

Lemma keeps_bind {A B C} (f : World X -> C) (c : M X A) (k : A -> M X B) :
  keeps f c -> (forall a, keeps f (k a)) -> keeps f (c ≫= k).
Proof.
  intros Hc Hk w. rewrite run_bind. specialize (Hc w).
  destruct (c w) as [[e|a] w']; simpl in *; [exact Hc|].
  rewrite Hk. exact Hc.
Qed.

Lemma keeps_try_except {A C} (f : World X -> C) (c : M X A) (h : PyExc -> M X A) :
  keeps f c -> (forall e, keeps f (h e)) -> keeps f (try_except c h).
Proof.
  intros Hc Hh w. unfold try_except. specialize (Hc w).
  destruct (c w) as [[e|a] w']; simpl in *; [|exact Hc].
  rewrite Hh. exact Hc.
Qed.

Lemma keeps_when {C} (f : World X -> C) (b : bool) (c : M X unit) :
  keeps f c -> keeps f (when b c).
Proof. intros Hc. destruct b; [exact Hc | apply keeps_ret]. Qed.

Lemma keeps_modify {C} (f : World X -> C) (g : World X -> World X) :
  (forall w, f (g w) = f w) -> keeps f (modify g).
Proof. intros H w. apply H. Qed.

Lemma keeps_call_ext {A C} (f : World X -> C) (c : X -> (PyExc + A) * X) :
  (forall b l s t k x x', f (mkWorld b l s t k x) = f (mkWorld b l s t k x')) ->
  keeps f (call_ext c).
Proof.
  intros H w. unfold call_ext. destruct (c (plugins w)) as [r x]. simpl.
  destruct w; simpl. apply H.
Qed.

End Running.

#[local] Ltac keeps_step :=
  first
    [ apply keeps_ret | apply keeps_raise | apply keeps_gets
    | apply keeps_when
    | apply keeps_try_except; [|intros ?]
    | apply keeps_bind; [|intros ?]
    | apply keeps_modify; intros ?; simpl;
      rewrite ?emitted_app; simpl; rewrite ?app_nil_r; reflexivity
    | apply keeps_call_ext; intros; reflexivity
    | match goal with |- keeps _ (match ?x with _ => _ end) => destruct x end
    | match goal with |- keeps _ (if ?x then _ else _) => destruct x end ].

#[local] Ltac keeps_auto := repeat keeps_step.

Section Properties.

Context {X : Type} (env : Collaborators X).

(** ** What each step leaves alone *)

Lemma keeps_any_update_session {C} (f : World X -> C) sid g :
  (forall b l s s' t k x, f (mkWorld b l s t k x) = f (mkWorld b l s' t k x)) ->
  keeps f (update_session env sid g).
Proof.
  intros H. unfold update_session, write_session, set_sessions.
  apply keeps_bind; [apply keeps_gets|intros s].
  apply keeps_modify. intros w. destruct w; simpl. symmetry; apply H.
Qed.

Lemma keeps_any_SessionManager_get {C} (f : World X -> C) message :
  (forall b l s s' t k x, f (mkWorld b l s t k x) = f (mkWorld b l s' t k x)) ->
  keeps f (SessionManager_get env message).
Proof.
  intros H. unfold SessionManager_get, write_session, set_sessions.
  apply keeps_bind; [apply keeps_gets|intros s].
  apply keeps_bind; [|intros ?; apply keeps_ret].
  apply keeps_modify. intros w. destruct w; simpl. symmetry; apply H.
Qed.

Lemma keeps_calls_validate message l :
  keeps calls (_validate_session env message l).
Proof.
  unfold _validate_session, SessionManager_reset_default_session,
    SessionManager_update, SessionManager_sync, expired, touch, set_lang,
    write_session, set_sessions, publish.
  apply keeps_bind; [apply keeps_any_SessionManager_get; reflexivity|intros sess].
  keeps_auto; apply keeps_any_update_session; reflexivity.
Qed.

Lemma keeps_published_validate message l :
  keeps published (_validate_session env message l).
Proof.
  unfold _validate_session, SessionManager_reset_default_session,
    SessionManager_update, SessionManager_sync, expired, touch, set_lang,
    write_session, set_sessions, publish, published.
  apply keeps_bind; [apply keeps_any_SessionManager_get; reflexivity|intros sess].
  keeps_auto; apply keeps_any_update_session; reflexivity.
Qed.

Lemma keeps_disambiguate {C} (f : World X -> C) message :
  (forall b l l' s t k x, f (mkWorld b l s t k x) = f (mkWorld b l' s t k x)) ->
  keeps f (disambiguate_lang env message).
Proof.
  intros H. unfold disambiguate_lang.
  generalize (get_message_lang env message) (get_valid_languages env).
  intros d v. induction lang_keys as [|k ks IH]; simpl; [apply keeps_ret|].
  destruct (context message !! k); [|exact IH].
  destruct (str_in _ v).
  - apply keeps_bind; [|intros ?; apply keeps_ret].
    apply keeps_when. apply keeps_modify. intros w; destruct w; simpl.
    symmetry; apply H.
  - apply keeps_bind; [|intros ?; exact IH].
    apply keeps_modify. intros w; destruct w; simpl. symmetry; apply H.
Qed.

Lemma keeps_transformers {C} (f : World X -> C) message :
  (forall b l l' s t k x x', f (mkWorld b l s t k x) = f (mkWorld b l' s t k x')) ->
  keeps f (_handle_transformers env message).
Proof.
  intros H. unfold _handle_transformers.
  apply keeps_bind; [apply keeps_call_ext; intros; apply H|intros [u c]].
  apply keeps_bind.
  - destruct (negb _); [|apply keeps_ret].
    apply keeps_bind; [|intros ?; apply keeps_ret].
    apply keeps_modify. intros w; destruct w; simpl. symmetry; apply H.
  - intros m. apply keeps_bind; [|intros ?; apply keeps_ret].
    apply keeps_call_ext; intros; apply H.
Qed.

Lemma keeps_calls_setup message : keeps calls (utterance_setup env message).
Proof.
  unfold utterance_setup.
  apply keeps_bind; [apply keeps_transformers; reflexivity|intros m].
  apply keeps_bind; [apply keeps_disambiguate; reflexivity|intros l].
  apply keeps_bind.
  { apply keeps_try_except; [apply keeps_call_ext; reflexivity|intros e].
    apply keeps_modify; reflexivity. }
  intros _. apply keeps_bind; [apply keeps_calls_validate|intros sess].
  keeps_auto.
Qed.

Lemma keeps_published_setup message : keeps published (utterance_setup env message).
Proof.
  unfold utterance_setup.
  apply keeps_bind; [apply keeps_transformers; reflexivity|intros m].
  apply keeps_bind; [apply keeps_disambiguate; reflexivity|intros l].
  apply keeps_bind.
  { apply keeps_try_except; [apply keeps_call_ext; reflexivity|intros e].
    apply keeps_modify; reflexivity. }
  intros _. apply keeps_bind; [apply keeps_published_validate|intros sess].
  keeps_auto.
Qed.

(** ** The dispatch pipeline *)

Lemma call_matcher_run f u l msg (w : World X) :
  let r := interpret env f u l msg (plugins w) in
  call_matcher env f u l msg w =
  (fst r, mkWorld (bus w) (log w) (sessions w) (clock w)
                  (calls w ++ [(f, outcome_of (fst r))]) (snd r)).
Proof. unfold call_matcher. simpl. destruct (interpret _ _ _ _ _ _); reflexivity. Qed.

Lemma match_loop_run stages u l msg : forall w : World X,
  let run := match_loop env stages u l msg w in
  ∃ invoked,
    calls (snd run) = calls w ++ invoked ∧
    first_match_run stages invoked (fst run) ∧
    bus (snd run) = bus w ∧ log (snd run) = log w ∧
    sessions (snd run) = sessions w ∧ clock (snd run) = clock w.
Proof.
  induction stages as [|f stages IH]; intros w; simpl.
  - exists []. rewrite app_nil_r. repeat split; try reflexivity. constructor.
  - rewrite run_bind, call_matcher_run.
    destruct (interpret env f u l msg (plugins w)) as [[e|[m|]] x] eqn:Hf; simpl.
    + exists [(f, Faulted e)]. repeat split; try reflexivity.
      * apply prefix_cons, prefix_nil.
      * exists [], f. split; [reflexivity|constructor].
    + exists [(f, Matched m)]. repeat split; try reflexivity.
      * apply prefix_cons, prefix_nil.
      * exists [], f. split; [reflexivity|constructor].
    + match goal with |- context [match_loop env stages u l msg ?w1] =>
        destruct (IH w1) as (inv & Hc & [Hp Hr] & Hb & Hl & Hs & Ht) end.
      simpl in *. exists ((f, Declined) :: inv).
      rewrite Hc, <- app_assoc. repeat split; try assumption; try reflexivity.
      * simpl. apply prefix_cons. exact Hp.
      * destruct (fst (match_loop env stages u l msg _)) as [e|[m|]].
        -- destruct Hr as (before & g & -> & Hd).
           exists ((f, Declined) :: before), g. split; [reflexivity|].
           constructor; [reflexivity|exact Hd].
        -- destruct Hr as (before & g & -> & Hd).
           exists ((f, Declined) :: before), g. split; [reflexivity|].
           constructor; [reflexivity|exact Hd].
        -- destruct Hr as [Hm Hd]. split; [simpl; f_equal; exact Hm|].
           constructor; [reflexivity|exact Hd].
Qed.

Lemma resolve_stages_lookup names : forall stages,
  resolve_stages env names = inr stages ->
  Forall2 (fun k f => matchers env !! k = Some f) names stages.
Proof.
  induction names as [|k names IH]; intros stages; simpl.
  - intros [= <-]. constructor.
  - destruct (matchers env !! k) as [f|] eqn:Hk; [|discriminate].
    destruct (resolve_stages env names) as [e|fs]; [discriminate|].
    intros [= <-]. constructor; [exact Hk|]. apply IH. reflexivity.
Qed.

Lemma resolve_stages_unknown names : forall k,
  k ∈ names -> matchers env !! k = None ->
  ∃ k', resolve_stages env names = inl (KeyError k') ∧
        k' ∈ names ∧ matchers env !! k' = None.
Proof.
  induction names as [|k0 names IH]; intros k Hin Hk.
  - inversion Hin.
  - simpl. destruct (matchers env !! k0) as [f|] eqn:Hk0.
    + assert (Hin' : k ∈ names).
      { apply elem_of_cons in Hin as [->|H]; [congruence|exact H]. }
      destruct (IH k Hin' Hk) as (k' & -> & Hk'in & Hk').
      exists k'. repeat split; [|exact Hk']. apply elem_of_cons. right; exact Hk'in.
    + exists k0. repeat split; [|exact Hk0]. apply elem_of_cons. left; reflexivity.
Qed.

(** [get_pipeline] only reads the session and may log a warning. *)
Lemma get_pipeline_run skips sess (w : World X) :
  let run := get_pipeline env skips sess w in
  fst run =
    match resolve_stages env
            (configured_stages (default [] skips) (pipeline (read_session env sess w))) with
    | inl e => inl e
    | inr fs => inr fs
    end ∧
  bus (snd run) = bus w ∧ sessions (snd run) = sessions w ∧
  clock (snd run) = clock w ∧ calls (snd run) = calls w ∧
  plugins (snd run) = plugins w.
Proof.
  unfold get_pipeline. rewrite run_bind. simpl.
  destruct (negb (padatious_installed env) && _); simpl;
    destruct (resolve_stages env _); simpl; repeat split; reflexivity.
Qed.

Lemma first_match_run_all_declined stages invoked r :
  first_match_run stages invoked r -> Forall declined invoked ->
  r = inr None ∧ map fst invoked = stages.
Proof.
  intros [_ Hr] Hd. destruct r as [e|[m|]].
  - destruct Hr as (before & f & -> & _).
    apply Forall_app in Hd as [_ Hd]. inversion Hd as [|? ? Hf _]. discriminate Hf.
  - destruct Hr as (before & f & -> & _).
    apply Forall_app in Hd as [_ Hd]. inversion Hd as [|? ? Hf _]. discriminate Hf.
  - destruct Hr as [Hm _]. split; [reflexivity|exact Hm].
Qed.

Lemma match_loop_all_decline stages u l msg :
  (forall f x, f ∈ stages -> fst (interpret env f u l msg x) = inr None) ->
  forall w : World X,
    let run := match_loop env stages u l msg w in
    fst run = inr None ∧
    calls (snd run) = calls w ++ map (fun f => (f, Declined)) stages ∧
    bus (snd run) = bus w ∧ log (snd run) = log w.
Proof.
  induction stages as [|f stages IH]; intros Hnull w; simpl.
  - rewrite app_nil_r. repeat split; reflexivity.
  - rewrite run_bind, call_matcher_run.
    assert (Hf := Hnull f (plugins w) ltac:(apply elem_of_cons; left; reflexivity)).
    destruct (interpret env f u l msg (plugins w)) as [r x]. simpl in Hf. subst r.
    simpl.
    match goal with |- context [match_loop env stages u l msg ?w1] =>
      destruct (IH ltac:(intros g y Hg; apply Hnull, elem_of_cons; right; exact Hg) w1)
        as (Hr & Hc & Hb & Hl) end.
    simpl in *. rewrite Hr, Hc, Hb, Hl, <- app_assoc. repeat split; reflexivity.
Qed.

Lemma match_loop_asks stages u l msg : forall w : World X,
  let run := match_loop env stages u l msg w in
  ∃ invoked,
    calls (snd run) = calls w ++ invoked ∧
    ask_in_turn env (map fst invoked) u l msg (plugins w) = (invoked, plugins (snd run)).
Proof.
  induction stages as [|f stages IH]; intros w; simpl.
  - exists []. rewrite app_nil_r. split; reflexivity.
  - rewrite run_bind, call_matcher_run.
    destruct (interpret env f u l msg (plugins w)) as [[e|[m|]] x] eqn:Hf; simpl.
    + exists [(f, Faulted e)]. split; [reflexivity|]. simpl. rewrite Hf. reflexivity.
    + exists [(f, Matched m)]. split; [reflexivity|]. simpl. rewrite Hf. reflexivity.
    + match goal with |- context [match_loop env stages u l msg ?w1] =>
        destruct (IH w1) as (inv & Hc & Ha) end.
      simpl in *. exists ((f, Declined) :: inv).
      rewrite Hc, <- app_assoc. split; [reflexivity|].
      simpl. rewrite Hf, Ha. reflexivity.
Qed.

Lemma match_loop_first_answer before f after m u l msg :
  (forall g x, g ∈ before -> fst (interpret env g u l msg x) = inr None) ->
  (forall x, fst (interpret env f u l msg x) = inr (Some m)) ->
  forall w : World X,
    let run := match_loop env (before ++ f :: after) u l msg w in
    fst run = inr (Some m) ∧
    calls (snd run) =
      calls w ++ map (fun g => (g, Declined)) before ++ [(f, Matched m)].
Proof.
  intros Hbefore Hf. induction before as [|g before IH]; intros w; simpl.
  - rewrite run_bind, call_matcher_run.
    specialize (Hf (plugins w)).
    destruct (interpret env f u l msg (plugins w)) as [r x]. simpl in Hf. subst r.
    simpl. split; reflexivity.
  - rewrite run_bind, call_matcher_run.
    assert (Hg := Hbefore g (plugins w) ltac:(apply elem_of_cons; left; reflexivity)).
    destruct (interpret env g u l msg (plugins w)) as [r x]. simpl in Hg. subst r.
    simpl.
    match goal with |- context [match_loop env _ u l msg ?w1] =>
      destruct (IH ltac:(intros h y Hh; apply Hbefore, elem_of_cons; right; exact Hh) w1)
        as (Hr & Hc) end.
    simpl in *. rewrite Hr, Hc, <- app_assoc. split; reflexivity.
Qed.

(** C1. Dispatch over the pipeline of a session resolves the configured,
    non-skipped stage names in their order and asks the resulting matchers
    strictly in that order: the matchers invoked are the first ones of the
    pipeline, and the outcome booked for each of them is what the matcher of
    the collaborators answers, on the state the call before has left.  It
    returns the match of the first matcher that returns one, and no matcher
    after it is invoked, whatever the matches say about confidence: when the
    matchers before a stage decline and the stage answers with a match,
    dispatch returns that match and has invoked exactly these matchers.  When
    every matcher declines, all the stages were tried and there is no
    match. *)
Theorem dispatch_first_match sess skips u l msg (w : World X) stages :
  let names :=
    configured_stages (default [] skips) (pipeline (read_session env sess w)) in
  resolve_stages env names = inr stages ->
  let run := match_utterance env sess skips u l msg w in
  Forall2 (fun k f => matchers env !! k = Some f) names stages ∧
  (∃ invoked,
     calls (snd run) = calls w ++ invoked ∧
     ask_in_turn env (map fst invoked) u l msg (plugins w)
       = (invoked, plugins (snd run)) ∧
     first_match_run stages invoked (fst run) ∧
     (Forall declined invoked -> fst run = inr None ∧ map fst invoked = stages)) ∧
  (forall before f after m,
     stages = before ++ f :: after ->
     (forall g x, g ∈ before -> fst (interpret env g u l msg x) = inr None) ->
     (forall x, fst (interpret env f u l msg x) = inr (Some m)) ->
     fst run = inr (Some m) ∧
     calls (snd run) =
       calls w ++ map (fun g => (g, Declined)) before ++ [(f, Matched m)]) ∧
  ((forall g x, g ∈ stages -> fst (interpret env g u l msg x) = inr None) ->
   fst run = inr None ∧
   calls (snd run) = calls w ++ map (fun g => (g, Declined)) stages).
Proof.
  intros names Hres run. split; [apply resolve_stages_lookup; exact Hres|].
  subst run. unfold match_utterance. rewrite run_bind.
  destruct (get_pipeline_run skips sess w) as (Hr & _ & _ & _ & Hc & Hx).
  fold names in Hr. rewrite Hres in Hr.
  destruct (get_pipeline env skips sess w) as [r w1]. simpl in Hr, Hc, Hx. subst r.
  split; [|split].
  - destruct (match_loop_run stages u l msg w1) as (inv & Hcalls & Hrun & _).
    destruct (match_loop_asks stages u l msg w1) as (inv' & Hcalls' & Hask).
    assert (inv' = inv) as ->.
    { rewrite Hcalls in Hcalls'. apply app_inv_head in Hcalls'. congruence. }
    exists inv. rewrite Hcalls, Hc, <- Hx. split; [reflexivity|].
    split; [exact Hask|]. split; [exact Hrun|].
    apply first_match_run_all_declined. exact Hrun.
  - intros before f after m -> Hbefore Hf.
    destruct (match_loop_first_answer before f after m u l msg Hbefore Hf w1)
      as [Hm Hcalls].
    rewrite Hm, Hcalls, Hc. split; reflexivity.
  - intros Hnull.
    destruct (match_loop_all_decline stages u l msg Hnull w1) as (Hm & Hcalls & _).
    rewrite Hm, Hcalls, Hc. split; reflexivity.
Qed.

(** C3. Building the pipeline looks up every configured, non-skipped stage
    name in the registry without invoking any matcher.  When it returns, each
    name has been resolved, in order; when one of the names is unknown it
    raises [KeyError], and so does dispatch, before any matcher is invoked. *)
Theorem unknown_stage_raises_before_dispatch sess skips u l msg (w : World X) :
  let names :=
    configured_stages (default [] skips) (pipeline (read_session env sess w)) in
  let build := get_pipeline env skips sess w in
  let run := match_utterance env sess skips u l msg w in
  (calls (snd build) = calls w ∧ plugins (snd build) = plugins w) ∧
  (forall stages, fst build = inr stages ->
     Forall2 (fun k f => matchers env !! k = Some f) names stages) ∧
  (forall k, k ∈ names -> matchers env !! k = None ->
     ∃ k', k' ∈ names ∧ matchers env !! k' = None ∧
           fst build = inl (KeyError k') ∧
           fst run = inl (KeyError k') ∧
           calls (snd run) = calls w ∧ plugins (snd run) = plugins w).
Proof.
  intros names build run.
  destruct (get_pipeline_run skips sess w) as (Hr & _ & _ & _ & Hc & Hp).
  fold names build in Hr, Hc, Hp.
  split; [split; assumption|]. split.
  - intros stages Hb. rewrite Hb in Hr.
    apply resolve_stages_lookup.
    destruct (resolve_stages env names); [discriminate|congruence].
  - intros k Hin Hk.
    destruct (resolve_stages_unknown names k Hin Hk) as (k' & Hres & Hin' & Hk').
    rewrite Hres in Hr. exists k'. repeat split; try assumption.
    + subst run. unfold match_utterance. rewrite run_bind.
      fold build. destruct build as [r w1]. simpl in Hr. subst r. reflexivity.
    + subst run. unfold match_utterance. rewrite run_bind.
      fold build. destruct build as [r w1]. simpl in *. subst r. exact Hc.
    + subst run. unfold match_utterance. rewrite run_bind.
      fold build. destruct build as [r w1]. simpl in *. subst r. exact Hp.
Qed.

(** ** Language disambiguation *)

Lemma str_in_elem_of k (l : list string) : str_in k l = true <-> k ∈ l.
Proof.
  unfold str_in. rewrite existsb_exists. split.
  - intros (x & Hin & Heq). apply String.eqb_eq in Heq. subst x.
    apply list_elem_of_In. exact Hin.
  - intros Hin. exists k. split; [apply list_elem_of_In; exact Hin|].
    apply String.eqb_refl.
Qed.

Lemma str_in_not_elem_of k (l : list string) : str_in k l = false <-> k ∉ l.
Proof.
  rewrite <- str_in_elem_of. destruct (str_in k l); split; intros H;
    try reflexivity; try discriminate; try (intros ?; discriminate).
  exfalso. apply H. reflexivity.
Qed.

Lemma disambiguate_lang_loop_run d valid message keys : forall w : World X,
  let run := disambiguate_lang_loop env d valid keys message w in
  ∃ rejected rest,
    candidates_of env keys message = rejected ++ rest ∧
    Forall (fun kv => snd kv ∉ valid) rejected ∧
    match rest with
    | (k, v) :: _ =>
        v ∈ valid ∧ fst run = inr v ∧
        log (snd run) =
          log w ++ map ignoring rejected ++
          (if String.eqb v d then [] else [LogReplacedLang d k v])
    | [] => fst run = inr d ∧ log (snd run) = log w ++ map ignoring rejected
    end.
Proof.
  induction keys as [|k keys IH]; intros w; simpl.
  - exists [], []. repeat split; [constructor|]. simpl. rewrite app_nil_r. reflexivity.
  - unfold candidates_of. simpl. destruct (context message !! k) as [c|]; simpl.
    + destruct (str_in (get_full_lang_code env c) valid) eqn:Hv.
      * exists [], ((k, get_full_lang_code env c) :: candidates_of env keys message).
        split; [reflexivity|]. split; [constructor|].
        split; [apply str_in_elem_of; exact Hv|].
        destruct (String.eqb (get_full_lang_code env c) d); simpl;
          (split; [reflexivity|]); rewrite ?app_nil_r; reflexivity.
      * rewrite run_bind. simpl.
        match goal with |- context [disambiguate_lang_loop env d valid keys message ?w1] =>
          destruct (IH w1) as (rej & rest & Hc & Hrej & Hrest) end.
        exists ((k, get_full_lang_code env c) :: rej), rest.
        split; [fold (candidates_of env keys message); rewrite Hc; reflexivity|].
        split; [constructor; [apply str_in_not_elem_of; exact Hv|exact Hrej]|].
        simpl in Hrest. destruct rest as [|[k' v'] rest].
        -- destruct Hrest as [-> ->]. split; [reflexivity|].
           rewrite <- app_assoc. reflexivity.
        -- destruct Hrest as (Hin & -> & ->). repeat split; [exact Hin|].
           rewrite <- app_assoc. reflexivity.
    + apply IH.
Qed.

(** C5. Language disambiguation goes through the context keys [stt_lang],
    [request_lang], [detected_lang] in that order, takes the full language
    code of each value present, and returns the first code that is an enabled
    language; each candidate rejected on the way is logged and skipped, and
    nothing is raised.  Without an enabled candidate the language of the
    message is returned.  With [stt_lang] "es-es" and [request_lang] "en-us"
    both enabled, the answer is "es-es". *)
Theorem disambiguate_lang_first_enabled message (w : World X) :
  let run := disambiguate_lang env message w in
  let d := get_message_lang env message in
  let valid := get_valid_languages env in
  lang_keys = ["stt_lang"; "request_lang"; "detected_lang"] ∧
  (∃ rejected rest,
    lang_candidates env message = rejected ++ rest ∧
    Forall (fun kv => snd kv ∉ valid) rejected ∧
    match rest with
    | (k, v) :: _ =>
        v ∈ valid ∧ fst run = inr v ∧
        log (snd run) =
          log w ++ map ignoring rejected ++
          (if String.eqb v d then [] else [LogReplacedLang d k v])
    | [] => fst run = inr d ∧ log (snd run) = log w ++ map ignoring rejected
    end) ∧
  (context message !! "stt_lang" = Some (VStr "es-es") ->
   context message !! "request_lang" = Some (VStr "en-us") ->
   get_full_lang_code env (VStr "es-es") = "es-es" ->
   get_full_lang_code env (VStr "en-us") = "en-us" ->
   "es-es" ∈ valid -> "en-us" ∈ valid ->
   fst run = inr "es-es").
Proof.
  intros run d valid. split; [reflexivity|]. split.
  - apply disambiguate_lang_loop_run.
  - intros Hstt _ Hes _ Hin _. subst run. unfold disambiguate_lang. simpl.
    rewrite Hstt, Hes. apply str_in_elem_of in Hin. fold valid. rewrite Hin.
    destruct (negb _); reflexivity.
Qed.

(** ** Session validation *)

Lemma read_session_insert_eq sid s b l ss t k (x : X) :
  read_session env sid (mkWorld b l (<[sid := s]> ss) t k x) = s.
Proof. unfold read_session. simpl. rewrite lookup_insert_eq. reflexivity. Qed.

#[local] Ltac crunch :=
  repeat (progress (cbn -[String.eqb read_session Z.ltb];
                    rewrite ?read_session_insert_eq)).

#[local] Ltac unfold_session_ops :=
  unfold SessionManager_get, SessionManager_reset_default_session,
    SessionManager_update, SessionManager_sync, expired, touch, set_lang,
    inject_context, remove_context, clear_context, set_context_stack,
    update_session, write_session, set_sessions, publish, when, modify, gets,
    mbind, M_bind, mret, M_ret, bind, ret.

(** What [_validate_session] returns and does to the store and the bus. *)
Lemma validate_session_run message lang_ (w : World X) :
  let sid := event_session_id message in
  let run := _validate_session env message lang_ w in
  let before := read_session env sid w in
  let after := read_session env sid (snd run) in
  fst run = inr sid ∧
  (sid = "default" -> expiry_deadline before < clock w ->
     after = mkSession lang_ [] [] (config_pipeline env) (clock w + session_ttl env) ∧
     active_skills after = [] ∧
     bus (snd run) = bus w ++ [SessionSync (serialize env "default" after)]) ∧
  (sid = "default" -> clock w <= expiry_deadline before -> lang_ = lang before ->
     bus (snd run) = bus w) ∧
  (sid ≠ "default" ->
     sessions (snd run) !! sid =
       Some (mkSession lang_ (active_skills before) (context_stack before)
                       (pipeline before) (clock w + session_ttl env)) ∧
     bus (snd run) = bus w).
Proof.
  intros sid run before after.
  subst run after before. unfold _validate_session.
  unfold SessionManager_get. fold sid. generalize sid. clear sid. intros sid.
  destruct w as [b l ss t k x]. unfold_session_ops.
  destruct (String.eqb_spec sid "default") as [->|Hne]; crunch.
  - set (s0 := read_session env "default" (mkWorld b l ss t k x)).
    destruct (Z.ltb_spec (expiry_deadline s0) t) as [Hexp|Hexp]; crunch.
    + unfold fresh_session. crunch.
      destruct (String.eqb_spec lang_ (config_lang env)) as [Hl|Hl]; crunch.
      * subst lang_. repeat split; try reflexivity; intros; try lia; try congruence.
      * repeat split; try reflexivity; intros; try lia; try congruence.
    + destruct (String.eqb_spec lang_ (lang s0)) as [Hl|Hl]; crunch.
      * repeat split; try reflexivity; intros; try lia; try congruence.
      * repeat split; try reflexivity; intros; try lia; try congruence.
  - repeat split; try reflexivity; intros; try congruence.
    apply lookup_insert_eq.
Qed.

(** C4. Validation of the session an event addresses.  For the default
    session whose deadline has elapsed, the session becomes a fresh record (no
    active skill, empty context stack) in the resolved language and exactly
    one resync is broadcast.  For the default session before its deadline and
    with the resolved language already stored, nothing is broadcast.  For any
    other session the language is set and the record stored, with its deadline
    refreshed, and nothing is broadcast. *)
Theorem validate_session_cases message lang_ (w : World X) :
  let sid := event_session_id message in
  let run := _validate_session env message lang_ w in
  let before := read_session env sid w in
  let after := read_session env sid (snd run) in
  fst run = inr sid ∧
  (sid = "default" -> expiry_deadline before < clock w ->
     after = mkSession lang_ [] [] (config_pipeline env) (clock w + session_ttl env) ∧
     active_skills after = [] ∧
     bus (snd run) = bus w ++ [SessionSync (serialize env "default" after)]) ∧
  (sid = "default" -> clock w <= expiry_deadline before -> lang_ = lang before ->
     bus (snd run) = bus w) ∧
  (sid ≠ "default" ->
     sessions (snd run) !! sid =
       Some (mkSession lang_ (active_skills before) (context_stack before)
                       (pipeline before) (clock w + session_ttl env)) ∧
     bus (snd run) = bus w).
Proof. exact (validate_session_run message lang_ w). Qed.

(** ** Context handlers *)

(** C10 (amended). The entity injected by the add-context handler has
    confidence 1.0 and the single data pair (word, context); its match text
    and its key are both the word, not the context name.  The word is the
    message's [word] when that is a non-empty string, its [str] when it is a
    truthy value of another type, and the empty string when it is absent or
    falsy ([None], [0], [False], an empty string or container).  The origin is
    the message's [origin] when truthy and the empty string otherwise.  The
    entity is put on top of the context stack of the session addressed. *)
Theorem add_context_entity_fields message (w : World X) :
  let word :=
    match data message !! "word" with
    | Some v =>
        if truthy v then match v with VStr s => s | _ => py_str env v end else ""
    | None => ""
    end in
  let origin_ :=
    match data message !! "origin" with
    | Some v => if truthy v then v else VStr ""
    | None => VStr ""
    end in
  let entity :=
    mkEntity 1 [(word, dict_get (data message) "context")] word word origin_ in
  let sid := event_session_id message in
  let run := handle_add_context env message w in
  add_context_entity env message = entity ∧
  fst run = inr tt ∧
  context_stack (read_session env sid (snd run)) =
    entity :: context_stack (read_session env sid w).
Proof.
  intros word origin_ entity sid run. subst run.
  assert (He : add_context_entity env message = entity).
  { subst entity word origin_. unfold add_context_entity, dict_get, py_or.
    destruct (data message !! "word") as [v|];
      destruct (data message !! "origin") as [o|]; simpl;
      try destruct (truthy v) eqn:Hv; try destruct (truthy o) eqn:Ho;
      try destruct v; try reflexivity; try discriminate. }
  split; [exact He|].
  unfold handle_add_context. rewrite He. unfold_session_ops. fold sid.
  destruct w as [b l ss t k x]. crunch. split; reflexivity.
Qed.

(** C8. Adding the context "kitchen" with the word "there" to a session whose
    context stack is empty and then removing the context "kitchen" leaves the
    stack empty.  Adding two entries, in either order, and then clearing the
    context leaves the stack empty. *)
Theorem context_round_trip (w : World X) :
  (forall add remove,
     data add !! "context" = Some (VStr "kitchen") ->
     data add !! "word" = Some (VStr "there") ->
     data remove !! "context" = Some (VStr "kitchen") ->
     event_session_id remove = event_session_id add ->
     context_stack (read_session env (event_session_id add) w) = [] ->
     let run :=
       (handle_add_context env add ≫= fun _ =>
        handle_remove_context env remove) w in
     fst run = inr tt ∧
     context_stack (read_session env (event_session_id add) (snd run)) = []) ∧
  (forall add1 add2 clear,
     event_session_id add2 = event_session_id add1 ->
     event_session_id clear = event_session_id add1 ->
     let run12 :=
       (handle_add_context env add1 ≫= fun _ =>
        handle_add_context env add2 ≫= fun _ =>
        handle_clear_context env clear) w in
     let run21 :=
       (handle_add_context env add2 ≫= fun _ =>
        handle_add_context env add1 ≫= fun _ =>
        handle_clear_context env clear) w in
     (fst run12 = inr tt ∧
      context_stack (read_session env (event_session_id add1) (snd run12)) = []) ∧
     (fst run21 = inr tt ∧
      context_stack (read_session env (event_session_id add1) (snd run21)) = [])).
Proof.
  split.
  - intros add remove Hc Hw Hr Hsid Hempty run. subst run.
    unfold handle_add_context, handle_remove_context, add_context_entity,
      dict_get, py_or, SessionManager_get.
    rewrite Hc, Hw, Hr, Hsid. set (sid := event_session_id add) in *.
    unfold_session_ops. destruct w as [b l ss t k x].
    repeat (progress (cbn -[read_session]; rewrite ?read_session_insert_eq)).
    rewrite Hempty. split; reflexivity.
  - intros add1 add2 clr H2 Hclr run12 run21. subst run12 run21.
    unfold handle_add_context, handle_clear_context, SessionManager_get.
    rewrite H2, Hclr. set (sid := event_session_id add1).
    unfold_session_ops. destruct w as [b l ss t k x]. crunch.
    repeat split; reflexivity.
Qed.

(** ** What the handler publishes *)

Lemma emit_result_none message sess (w : World X) :
  let run := emit_result env None message sess w in
  let sound := dict_get_or (config_sounds env) "error" (VStr "snd/error.mp3") in
  fst run = inr (None, context message) ∧
  published (snd run) =
    published w ++
    [mkMessage "mycroft.audio.play_sound" {[ "uri" := sound ]} (context message);
     mkMessage "complete_intent_failure" ∅ (context message)] ∧
  calls (snd run) = calls w ∧ log (snd run) = log w.
Proof.
  intros run sound. subst run. unfold emit_result, send_complete_intent_failure,
    bus_emit, forward, published. unfold_session_ops.
  destruct w as [b l ss t k x].
  destruct (String.eqb sess "default"); crunch;
    rewrite ?emitted_app; simpl; rewrite <- ?app_assoc, ?app_nil_r; simpl;
    repeat split; reflexivity.
Qed.

Lemma emit_result_some m message sess (w : World X) :
  let run := emit_result env (Some m) message sess w in
  let stamped := set_data "utterance" (VStr (utterance m)) message in
  let ctx :=
    match if_truthy (skill_id m) with
    | Some skill => <["skill_id" := VStr skill]> (context message)
    | None => context message
    end in
  fst run = inr (Some m, ctx) ∧
  published (snd run) =
    published w ++
    match if_truthy (intent_type m) with
    | Some ty =>
        [mkMessage ty
           (intent_data m ∪ <["utterance" := VStr (utterance m)]> (data message))
           (reply_context env ctx)]
    | None => []
    end ∧
  calls (snd run) = calls w ∧ log (snd run) = log w.
Proof.
  intros run stamped ctx. subst run stamped ctx.
  unfold emit_result, activate_skill, bus_emit, reply, published.
  unfold_session_ops. destruct w as [b l ss t k x].
  destruct (if_truthy (skill_id m)) as [skill|];
    destruct (if_truthy (intent_type m)) as [ty|];
    destruct (String.eqb sess "default"); crunch;
    rewrite ?emitted_app; simpl; rewrite <- ?app_assoc, ?app_nil_r; simpl;
    repeat split; reflexivity.
Qed.

Lemma handle_utterance_try_run message (w : World X) :
  handle_utterance_try env message w =
  match utterance_setup env message w with
  | (inl e, w1) => (inl e, w1)
  | (inr (m1, l, u, sess), w1) =>
      match match_utterance env sess None u l m1 w1 with
      | (inl e, w2) => (inl e, w2)
      | (inr mt, w2) => emit_result env mt m1 sess (logged LogMatchingTook w2)
      end
  end.
Proof.
  unfold handle_utterance_try. rewrite run_bind.
  destruct (utterance_setup env message w) as [[e|[[[m1 l] u] sess]] w1];
    [reflexivity|].
  rewrite run_bind.
  destruct (match_utterance env sess None u l m1 w1) as [[e|mt] w2];
    [reflexivity|].
  reflexivity.
Qed.

Lemma handle_utterance_run message (w : World X) :
  handle_utterance env message w =
  match handle_utterance_try env message w with
  | (inl e, w') => (inr None, logged (LogException e) w')
  | (inr v, w') => (inr (Some v), w')
  end.
Proof.
  unfold handle_utterance, try_except. rewrite run_bind.
  destruct (handle_utterance_try env message w) as [[e|v] w']; reflexivity.
Qed.

Lemma match_utterance_run sess skips u l msg (w : World X) :
  let run := match_utterance env sess skips u l msg w in
  ∃ invoked,
    calls (snd run) = calls w ++ invoked ∧
    bus (snd run) = bus w ∧
    match fst run with
    | inr (Some m) =>
        ∃ before f, invoked = before ++ [(f, Matched m)] ∧ Forall declined before
    | inr None => Forall declined invoked
    | inl e =>
        invoked = [] ∨
        ∃ before f, invoked = before ++ [(f, Faulted e)] ∧ Forall declined before
    end.
Proof.
  intros run. subst run. unfold match_utterance. rewrite run_bind.
  destruct (get_pipeline_run skips sess w) as (_ & Hb & _ & _ & Hc & _).
  destruct (get_pipeline env skips sess w) as [[e|stages] w1]; simpl in *.
  - exists []. rewrite app_nil_r. repeat split; try assumption. left; reflexivity.
  - destruct (match_loop_run stages u l msg w1) as (inv & Hcalls & [_ Hrun] & Hbus & _).
    exists inv. rewrite Hcalls, Hc, Hbus, Hb. repeat split.
    destruct (fst (match_loop env stages u l msg w1)) as [e|[m|]].
    + right. exact Hrun.
    + exact Hrun.
    + apply Hrun.
Qed.

(** The matchers that [handle_utterance] calls are those that dispatch calls
    for the message set up, and the handler returns the match of dispatch, or
    [None] when dispatch raises. *)
Lemma handle_utterance_dispatch message (w w1 : World X) m1 l u sess :
  utterance_setup env message w = (inr (m1, l, u, sess), w1) ->
  let found := match_utterance env sess None u l m1 w1 in
  let run := handle_utterance env message w in
  calls w1 = calls w ∧
  calls (snd run) = calls (snd found) ∧
  match fst found with
  | inr match_ => ∃ ctx, fst run = inr (Some (match_, ctx))
  | inl e => fst run = inr None
  end.
Proof.
  intros Hsetup found run. subst found run.
  assert (Hc1 := keeps_calls_setup message w). rewrite Hsetup in Hc1. simpl in Hc1.
  split; [exact Hc1|].
  rewrite handle_utterance_run, handle_utterance_try_run, Hsetup.
  destruct (match_utterance env sess None u l m1 w1) as [[e|mt] w2]; simpl.
  - split; reflexivity.
  - destruct mt as [m|].
    + destruct (emit_result_some m m1 sess (logged LogMatchingTook w2))
        as (He & _ & Hk & _).
      destruct (emit_result env (Some m) m1 sess (logged LogMatchingTook w2)) as [r w3].
      simpl in He, Hk. subst r. simpl. split; [exact Hk|]. eexists; reflexivity.
    + destruct (emit_result_none m1 sess (logged LogMatchingTook w2))
        as (He & _ & Hk & _).
      destruct (emit_result env None m1 sess (logged LogMatchingTook w2)) as [r w3].
      simpl in He, Hk. subst r. simpl. split; [exact Hk|]. eexists; reflexivity.
Qed.

(** The message that [utterance_setup] hands to dispatch is the message
    received, up to the utterances rewritten by the transformers and to its
    context. *)
Lemma handle_transformers_data message (w w1 : World X) m :
  _handle_transformers env message w = (inr m, w1) ->
  msg_type m = msg_type message ∧
  forall k, k ≠ "utterances" -> data m !! k = data message !! k.
Proof.
  unfold _handle_transformers. rewrite run_bind.
  destruct (call_ext _ w) as [[e|[u c]] w2]; [discriminate|].
  rewrite run_bind.
  destruct (negb (value_eqb _ u)).
  - rewrite run_bind. simpl. rewrite run_bind.
    destruct (call_ext _ _) as [[e|c'] w3]; [discriminate|].
    intros [= <- _]. split; [reflexivity|]. intros k Hk. simpl.
    apply lookup_insert_ne. congruence.
  - simpl. rewrite run_bind.
    destruct (call_ext _ _) as [[e|c'] w3]; [discriminate|].
    intros [= <- _]. split; [reflexivity|]. intros k Hk. reflexivity.
Qed.

Lemma utterance_setup_data message (w w1 : World X) m1 l u sess :
  utterance_setup env message w = (inr (m1, l, u, sess), w1) ->
  msg_type m1 = msg_type message ∧
  (forall k, k ≠ "utterances" -> data m1 !! k = data message !! k) ∧
  u = dict_get_or (data m1) "utterances" (VList []) ∧
  sess = event_session_id m1.
Proof.
  unfold utterance_setup. rewrite run_bind.
  destruct (_handle_transformers env message w) as [[e|m] w2] eqn:Ht; [discriminate|].
  apply handle_transformers_data in Ht as [Hty Hdata].
  rewrite run_bind. destruct (disambiguate_lang env m w2) as [[e|l'] w3]; [discriminate|].
  rewrite run_bind. destruct (try_except _ _ w3) as [[e|[]] w4]; [discriminate|].
  rewrite run_bind.
  destruct (validate_session_run m l' w4) as [Hv _].
  destruct (_validate_session env m l' w4) as [r w5]. simpl in Hv. subst r.
  simpl. intros [= <- <- <- <- <-]. simpl. repeat split; try assumption.
  unfold event_session_id, set_context. simpl.
  rewrite lookup_insert_ne by discriminate. reflexivity.
Qed.


(** C7 (amended). For a match produced by dispatch: when its intent type is
    neither [None] nor the empty string, the handler publishes exactly one
    event, addressed to that intent type, whose data is the data of the event
    being handled, on which the handler has by then set [utterance] to the
    utterance of the match, merged with and overridden by the intent data of
    the match; when the intent type is [None] or the empty string, the handler
    publishes no event.  The data of the event being handled is the data
    received, up to the utterances rewritten by the transformers. *)
Theorem match_publishes_intent_event message (w w1 w2 : World X) m1 l u sess m :
  utterance_setup env message w = (inr (m1, l, u, sess), w1) ->
  match_utterance env sess None u l m1 w1 = (inr (Some m), w2) ->
  let run := handle_utterance env message w in
  let ctx :=
    match if_truthy (skill_id m) with
    | Some skill => <["skill_id" := VStr skill]> (context m1)
    | None => context m1
    end in
  fst run = inr (Some (Some m, ctx)) ∧
  published (snd run) =
    published w ++
    match if_truthy (intent_type m) with
    | Some ty =>
        [mkMessage ty
           (intent_data m ∪ <["utterance" := VStr (utterance m)]> (data m1))
           (reply_context env ctx)]
    | None => []
    end ∧
  (forall k, k ≠ "utterances" -> data m1 !! k = data message !! k).
Proof.
  intros Hsetup Hmatch run ctx. subst run.
  destruct (utterance_setup_data message w w1 m1 l u sess Hsetup) as (_ & Hdata & _).
  rewrite handle_utterance_run, handle_utterance_try_run, Hsetup, Hmatch.
  assert (Hp1 := keeps_published_setup message w).
  rewrite Hsetup in Hp1. simpl in Hp1.
  destruct (match_utterance_run sess None u l m1 w1) as (inv & _ & Hb & _).
  rewrite Hmatch in Hb. simpl in Hb.
  destruct (emit_result_some m m1 sess (logged LogMatchingTook w2)) as (He & Hpub & _).
  destruct (emit_result env (Some m) m1 sess (logged LogMatchingTook w2)) as [r w3].
  simpl in He, Hpub. subst r. simpl. split; [reflexivity|]. split; [|exact Hdata].
  rewrite Hpub. unfold published in *. simpl. rewrite Hb, Hp1. reflexivity.
Qed.

Lemma faulted_not_declined before f e :
  Forall declined before -> (f, Faulted e) ∈ before -> False.
Proof.
  intros Hd Hin. rewrite Forall_forall in Hd.
  specialize (Hd _ Hin). discriminate Hd.
Qed.

(** C2 (amended). When a pipeline stage raises during the handling of an
    utterance, the exception is caught by the handler and logged, the handler
    returns [None] and raises nothing, and it publishes no event: neither the
    failure sound, nor [complete_intent_failure], nor an intent event. *)
Theorem stage_fault_caught_without_notification message (w : World X) invoked f e :
  let run := handle_utterance env message w in
  calls (snd run) = calls w ++ invoked ->
  (f, Faulted e) ∈ invoked ->
  fst run = inr None ∧
  (∃ l', log (snd run) = l' ++ [LogException e]) ∧
  published (snd run) = published w.
Proof.
  intros run Hcalls Hin. subst run.
  rewrite handle_utterance_run, handle_utterance_try_run in *.
  assert (Hc1 := keeps_calls_setup message w).
  assert (Hp1 := keeps_published_setup message w).
  destruct (utterance_setup env message w) as [[e0|[[[m1 l] u] sess]] w1];
    simpl in Hc1, Hp1.
  - simpl in Hcalls. rewrite Hc1 in Hcalls.
    rewrite <- (app_nil_r (calls w)) in Hcalls at 1.
    apply app_inv_head in Hcalls. subst invoked. inversion Hin.
  - destruct (match_utterance_run sess None u l m1 w1) as (inv & Hc2 & Hb & Hrun).
    destruct (match_utterance env sess None u l m1 w1) as [[e'|mt] w2];
      simpl in Hc2, Hb, Hrun.
    + simpl in Hcalls. rewrite Hc2, Hc1 in Hcalls.
      apply app_inv_head in Hcalls. subst inv.
      destruct Hrun as [->|(before & g & -> & Hd)]; [inversion Hin|].
      apply elem_of_app in Hin as [Hin|Hin];
        [exfalso; exact (faulted_not_declined _ _ _ Hd Hin)|].
      apply list_elem_of_singleton in Hin. injection Hin as _ <-.
      simpl. split; [reflexivity|]. split; [eexists; reflexivity|].
      unfold published in *. simpl. rewrite Hb. exact Hp1.
    + exfalso.
      assert (Hk : calls (snd (emit_result env mt m1 sess (logged LogMatchingTook w2)))
                   = calls w2).
      { destruct mt as [m|];
          [apply (emit_result_some m m1 sess (logged LogMatchingTook w2))
          |apply (emit_result_none m1 sess (logged LogMatchingTook w2))]. }
      assert (Hr : ∃ v, fst (emit_result env mt m1 sess (logged LogMatchingTook w2)) = inr v).
      { destruct mt as [m|]; eexists;
          [apply (emit_result_some m m1 sess (logged LogMatchingTook w2))
          |apply (emit_result_none m1 sess (logged LogMatchingTook w2))]. }
      destruct Hr as [v Hr].
      destruct (emit_result env mt m1 sess (logged LogMatchingTook w2)) as [r w3].
      simpl in Hk, Hr. subst r. simpl in Hcalls.
      rewrite Hk, Hc2, Hc1 in Hcalls. apply app_inv_head in Hcalls. subst inv.
      destruct mt as [m|].
      * destruct Hrun as (before & g & -> & Hd).
        apply elem_of_app in Hin as [Hin|Hin];
          [exact (faulted_not_declined _ _ _ Hd Hin)|].
        apply list_elem_of_singleton in Hin. discriminate Hin.
      * exact (faulted_not_declined _ _ _ Hrun Hin).
Qed.

Lemma disambiguate_lang_returns message (w : World X) :
  ∃ v, fst (disambiguate_lang env message w) = inr v.
Proof.
  destruct (disambiguate_lang_loop_run (get_message_lang env message)
              (get_valid_languages env) message lang_keys w)
    as (rej & [|[k v] rest] & _ & _ & H).
  - eexists. apply H.
  - eexists. apply H.
Qed.

Lemma guarded_setup_locale_run l (w : World X) :
  let run := guarded_setup_locale env l w in
  fst run = inr tt ∧
  (forall e, fst (setup_locale env l (plugins w)) = inl e ->
     log (snd run) = log w ++ [LogLocaleFailure l]).
Proof.
  unfold guarded_setup_locale, try_except, call_ext.
  destruct (setup_locale env l (plugins w)) as [[e|[]] x]; simpl.
  - split; [reflexivity|]. intros; reflexivity.
  - split; [reflexivity|]. intros e [=].
Qed.

Lemma utterance_setup_raises message (w : World X) e :
  fst (utterance_setup env message w) = inl e <->
  fst (_handle_transformers env message w) = inl e.
Proof.
  unfold utterance_setup. rewrite run_bind.
  destruct (_handle_transformers env message w) as [[e0|m] w1];
    [simpl; split; intros [= ->]; reflexivity|].
  simpl. rewrite run_bind.
  destruct (disambiguate_lang_returns m w1) as [l Hl].
  destruct (disambiguate_lang env m w1) as [r w2]. simpl in Hl. subst r.
  rewrite run_bind.
  destruct (guarded_setup_locale_run l w2) as [Hg _]. unfold guarded_setup_locale in Hg.
  destruct (try_except _ _ w2) as [r w3]. simpl in Hg. subst r.
  rewrite run_bind.
  destruct (validate_session_run m l w3) as [Hv _].
  destruct (_validate_session env m l w3) as [r w4]. simpl in Hv. subst r.
  simpl. split; intros [=].
Qed.

(** ** The handler over its callees *)

Lemma utterance_setup_callees message :
  utterance_setup env message = utterance_setup_of (callees env) message.
Proof. reflexivity. Qed.

Lemma match_loop_callees stages u l msg :
  match_loop env stages u l msg = match_loop_of (callees env) stages u l msg.
Proof.
  induction stages as [|f stages IH]; simpl; [reflexivity|].
  rewrite IH. reflexivity.
Qed.

Lemma match_utterance_callees sess u l msg (w : World X) :
  match_utterance env sess None u l msg w
  = match_utterance_of (callees env) sess u l msg w.
Proof.
  unfold match_utterance, match_utterance_of. rewrite !run_bind. simpl.
  destruct (get_pipeline env None sess w) as [[e|stages] w1]; [reflexivity|].
  rewrite match_loop_callees. reflexivity.
Qed.

Lemma emit_result_callees match_ message sess :
  emit_result env match_ message sess = emit_result_of (callees env) match_ message sess.
Proof. destruct match_ as [m|]; reflexivity. Qed.

Lemma handle_utterance_try_of_run (c : Callees X) message (w : World X) :
  handle_utterance_try_of c message w =
  match utterance_setup_of c message w with
  | (inl e, w1) => (inl e, w1)
  | (inr (m1, l, u, sess), w1) =>
      match match_utterance_of c sess u l m1 w1 with
      | (inl e, w2) => (inl e, w2)
      | (inr mt, w2) => emit_result_of c mt m1 sess (logged LogMatchingTook w2)
      end
  end.
Proof.
  unfold handle_utterance_try_of. rewrite run_bind.
  destruct (utterance_setup_of c message w) as [[e|[[[m1 l] u] sess]] w1];
    [reflexivity|].
  rewrite run_bind.
  destruct (match_utterance_of c sess u l m1 w1) as [[e|mt] w2]; reflexivity.
Qed.

Lemma handle_utterance_of_run (c : Callees X) message (w : World X) :
  handle_utterance_of c message w =
  match handle_utterance_try_of c message w with
  | (inl e, w') => (inr None, logged (LogException e) w')
  | (inr v, w') => (inr (Some v), w')
  end.
Proof.
  unfold handle_utterance_of, try_except. rewrite run_bind.
  destruct (handle_utterance_try_of c message w) as [[e|v] w']; reflexivity.
Qed.

Lemma handle_utterance_callees message (w : World X) :
  handle_utterance env message w = handle_utterance_of (callees env) message w.
Proof.
  rewrite handle_utterance_run, handle_utterance_of_run,
    handle_utterance_try_run, handle_utterance_try_of_run.
  rewrite utterance_setup_callees.
  destruct (utterance_setup_of (callees env) message w)
    as [[e|[[[m1 l] u] sess]] w1]; [reflexivity|].
  rewrite match_utterance_callees.
  destruct (match_utterance_of (callees env) sess u l m1 w1) as [[e|mt] w2];
    [reflexivity|].
  rewrite emit_result_callees. reflexivity.
Qed.

Lemma utterance_setup_of_run (c : Callees X) message (w : World X) :
  utterance_setup_of c message w =
  match run_handle_transformers c message w with
  | (inl e, w1) => (inl e, w1)
  | (inr m, w1) =>
      match run_disambiguate_lang c m w1 with
      | (inl e, w2) => (inl e, w2)
      | (inr l, w2) =>
          match run_validate_session c m l (after_setup_locale c l w2) with
          | (inl e, w4) => (inl e, w4)
          | (inr sess, w4) =>
              match run_serialize c sess w4 with
              | (inl e, w5) => (inl e, w5)
              | (inr d, w5) =>
                  (inr (set_context "session" d m, l,
                        dict_get_or (data m) "utterances" (VList []), sess), w5)
              end
          end
      end
  end.
Proof.
  unfold utterance_setup_of, after_setup_locale. rewrite run_bind.
  destruct (run_handle_transformers c message w) as [[e|m] w1]; [reflexivity|].
  rewrite run_bind.
  destruct (run_disambiguate_lang c m w1) as [[e|l] w2]; [reflexivity|].
  rewrite run_bind. unfold try_except at 1.
  destruct (run_setup_locale c l w2) as [[e|[]] w3]; simpl;
    rewrite run_bind;
    destruct (run_validate_session c m l _) as [[e'|sess] w4]; try reflexivity;
    rewrite run_bind;
    destruct (run_serialize c sess w4) as [[e'|d] w5]; reflexivity.
Qed.

(** C9 (amended). The utterance handler never raises, whatever the methods
    and functions it calls do.  An exception raised by the transformers, by
    the language resolution, by the validation of the session or the
    serialisation that stamps it on the message, by dispatch (building the
    pipeline or calling a matcher) or by the emission of the result
    (activating the skill, building or emitting the reply, the failure
    notification, the session sync) is caught by the outermost [except] and
    logged, nothing is done after it, and the handler returns [None];
    otherwise the handler returns the result of the body.  An exception raised
    by the locale setup is not among those: the inner [try] around
    [setup_locale] catches and logs it, and the handler goes on with the
    validation of the session from there.  The handler of the intent service
    is this handler over its own callees; for it, a fault of the locale setup
    is logged and the setup returns with the session validated in the world
    so logged. *)
Theorem handle_utterance_never_raises (c : Callees X) message (w : World X) :
  let run := handle_utterance_of c message w in
  let caught e w' := run = (inr None, logged (LogException e) w') in
  (* the handler of the intent service *)
  (handle_utterance env message w = handle_utterance_of (callees env) message w ∧
   (∃ r, fst (handle_utterance env message w) = inr r) ∧
   (forall m w1 l w2 e w3,
      _handle_transformers env message w = (inr m, w1) ->
      disambiguate_lang env m w1 = (inr l, w2) ->
      call_ext (setup_locale env l) w2 = (inl e, w3) ->
      ∃ sess w4,
        _validate_session env m l (logged (LogLocaleFailure l) w3) = (inr sess, w4) ∧
        utterance_setup env message w =
          (inr (set_context "session" (serialize env sess (read_session env sess w4)) m,
                l, dict_get_or (data m) "utterances" (VList []), sess), w4))) ∧
  (* never raises *)
  (∃ r, fst run = inr r) ∧
  (* transformers *)
  (forall e w1, run_handle_transformers c message w = (inl e, w1) -> caught e w1) ∧
  (forall m w1,
     run_handle_transformers c message w = (inr m, w1) ->
     (* language resolution *)
     (forall e w2, run_disambiguate_lang c m w1 = (inl e, w2) -> caught e w2) ∧
     (forall l w2,
        run_disambiguate_lang c m w1 = (inr l, w2) ->
        (* locale setup: a fault is logged by the inner [except] *)
        let w3 :=
          match run_setup_locale c l w2 with
          | (inl _, w') => logged (LogLocaleFailure l) w'
          | (inr _, w') => w'
          end in
        (* session validation *)
        (forall e w4, run_validate_session c m l w3 = (inl e, w4) -> caught e w4) ∧
        (forall sess w4,
           run_validate_session c m l w3 = (inr sess, w4) ->
           (forall e w5, run_serialize c sess w4 = (inl e, w5) -> caught e w5) ∧
           (forall d w5,
              run_serialize c sess w4 = (inr d, w5) ->
              utterance_setup_of c message w =
                (inr (set_context "session" d m, l,
                      dict_get_or (data m) "utterances" (VList []), sess), w5))))) ∧
  (forall m1 l u sess w1,
     utterance_setup_of c message w = (inr (m1, l, u, sess), w1) ->
     (* dispatch *)
     (forall e w2, match_utterance_of c sess u l m1 w1 = (inl e, w2) -> caught e w2) ∧
     (forall mt w2,
        match_utterance_of c sess u l m1 w1 = (inr mt, w2) ->
        let w3 := logged LogMatchingTook w2 in
        (* result emission *)
        (forall e w4, emit_result_of c mt m1 sess w3 = (inl e, w4) -> caught e w4) ∧
        (forall v w4, emit_result_of c mt m1 sess w3 = (inr v, w4) ->
           run = (inr (Some v), w4)))) ∧
  (* dispatch raises when building the pipeline or a matcher raises *)
  (forall sess u l m1 w1 e w2,
     run_get_pipeline c sess w1 = (inl e, w2) ->
     match_utterance_of c sess u l m1 w1 = (inl e, w2)) ∧
  (forall sess u l m1 w1 f stages w2 e w3,
     run_get_pipeline c sess w1 = (inr (f :: stages), w2) ->
     run_match_func c f u l m1 w2 = (inl e, w3) ->
     match_utterance_of c sess u l m1 w1 = (inl e, w3)) ∧
  (* emission raises when one of its calls raises *)
  (forall m1 sess w1 e w2,
     run_send_complete_intent_failure c m1 w1 = (inl e, w2) ->
     emit_result_of c None m1 sess w1 = (inl e, w2)) ∧
  (forall m m1 sess w1 skill e w2,
     if_truthy (skill_id m) = Some skill ->
     run_activate_skill c skill (set_data "utterance" (VStr (utterance m)) m1) w1
       = (inl e, w2) ->
     emit_result_of c (Some m) m1 sess w1 = (inl e, w2)) ∧
  (forall m m1 sess w1 ty,
     if_truthy (skill_id m) = None ->
     if_truthy (intent_type m) = Some ty ->
     let stamped := set_data "utterance" (VStr (utterance m)) m1 in
     let d := intent_data m ∪ data stamped in
     (forall e w2, run_reply c stamped ty d w1 = (inl e, w2) ->
        emit_result_of c (Some m) m1 sess w1 = (inl e, w2)) ∧
     (forall r w2 e w3,
        run_reply c stamped ty d w1 = (inr r, w2) ->
        run_bus_emit c r w2 = (inl e, w3) ->
        emit_result_of c (Some m) m1 sess w1 = (inl e, w3))) ∧
  (forall m1 w1 w2 e w3,
     run_send_complete_intent_failure c m1 w1 = (inr tt, w2) ->
     run_sync c m1 w2 = (inl e, w3) ->
     emit_result_of c None m1 "default" w1 = (inl e, w3)).
Proof.
  intros run caught. subst run caught. cbv beta.
  split; [split; [|split]|].
  - apply handle_utterance_callees.
  - rewrite handle_utterance_run.
    destruct (handle_utterance_try env message w) as [[e|v] w']; eexists; reflexivity.
  - intros m w1 l w2 e w3 Ht Hl Hloc.
    destruct (validate_session_run m l (logged (LogLocaleFailure l) w3)) as [Hv _].
    destruct (_validate_session env m l (logged (LogLocaleFailure l) w3))
      as [r w4] eqn:Hval.
    simpl in Hv. subst r. exists (event_session_id m), w4. split; [reflexivity|].
    unfold utterance_setup. rewrite run_bind, Ht, run_bind, Hl, run_bind.
    unfold try_except at 1. rewrite Hloc. simpl.
    rewrite run_bind. unfold logged in Hval. simpl in Hval. rewrite Hval.
    reflexivity.
  - rewrite handle_utterance_of_run.
    split; [destruct (handle_utterance_try_of c message w) as [[e|v] w'];
            eexists; reflexivity|].
    rewrite handle_utterance_try_of_run.
    split; [|split; [|split; [|split; [|split; [|split; [|split; [|split]]]]]]].
    + intros e w1 Ht. rewrite utterance_setup_of_run, Ht. reflexivity.
    + intros m w1 Ht. rewrite utterance_setup_of_run, Ht. split.
      * intros e w2 Hl. rewrite Hl. reflexivity.
      * intros l w2 Hl w3. rewrite Hl. fold (after_setup_locale c l w2).
        subst w3. fold (after_setup_locale c l w2). split.
        -- intros e w4 Hv. rewrite Hv. reflexivity.
        -- intros sess w4 Hv. rewrite Hv. split.
           ++ intros e w5 Hs. rewrite Hs. reflexivity.
           ++ intros d w5 Hs. rewrite Hs. reflexivity.
    + intros m1 l u sess w1 Hsetup. rewrite Hsetup. split.
      * intros e w2 Hm. rewrite Hm. reflexivity.
      * intros mt w2 Hm w3. rewrite Hm. subst w3. split.
        -- intros e w4 He. rewrite He. reflexivity.
        -- intros v w4 He. rewrite He. reflexivity.
    + intros sess u l m1 w1 e w2 Hp. unfold match_utterance_of.
      rewrite run_bind, Hp. reflexivity.
    + intros sess u l m1 w1 f stages w2 e w3 Hp Hf. unfold match_utterance_of.
      rewrite run_bind, Hp. simpl. rewrite run_bind, Hf. reflexivity.
    + intros m1 sess w1 e w2 Hf. unfold emit_result_of.
      rewrite run_bind, run_bind, Hf. reflexivity.
    + intros m m1 sess w1 skill e w2 Hskill Ha. unfold emit_result_of.
      rewrite Hskill. rewrite !run_bind, Ha. reflexivity.
    + intros m m1 sess w1 ty Hskill Hty stamped d. subst stamped d. split.
      * intros e w2 Hr. unfold emit_result_of. rewrite Hskill, Hty.
        rewrite !run_bind. simpl in Hr |- *. rewrite !run_bind, Hr. reflexivity.
      * intros r w2 e w3 Hr Hb. unfold emit_result_of. rewrite Hskill, Hty.
        rewrite !run_bind. simpl in Hr |- *. rewrite !run_bind, Hr, Hb. reflexivity.
    + intros m1 w1 w2 e w3 Hf Hs. unfold emit_result_of.
      rewrite !run_bind, Hf. simpl. rewrite run_bind, Hs. reflexivity.
Qed.

End Properties.


(** * Properties of the intents API and of the registries *)

Section RegistryProperties.

Context {X : Type} (env : Collaborators X) (backends : Backends X).

(** ** Old-style keyword messages *)

(** X1. Upgrading an old-style keyword message that has an [end] returns,
    copies [start] to [entity_value] and [end] to [entity_type], leaves every
    other item of the data as it was, and the upgraded message is not
    old-style any more. *)
Theorem update_keyword_message_upgrades message end_ :
  _is_old_style_keyword_message message = true ->
  data message !! "end" = Some end_ ->
  let run := _update_keyword_message message in
  fst run = inr tt ∧
  msg_type (snd run) = msg_type message ∧
  context (snd run) = context message ∧
  data (snd run) !! "entity_value" = data message !! "start" ∧
  data (snd run) !! "entity_type" = Some end_ ∧
  (forall k, k ≠ "entity_value" -> k ≠ "entity_type" ->
     data (snd run) !! k = data message !! k) ∧
  _is_old_style_keyword_message (snd run) = false.
Proof.
  intros Hold Hend run. subst run.
  unfold _is_old_style_keyword_message, has_key in Hold.
  unfold _update_keyword_message.
  destruct (data message !! "start") as [start|] eqn:Hstart;
    [|rewrite andb_false_r in Hold; discriminate].
  simpl. rewrite lookup_insert_ne by discriminate. rewrite Hend. simpl.
  repeat split.
  - rewrite lookup_insert_ne by discriminate. apply lookup_insert_eq.
  - apply lookup_insert_eq.
  - intros k H1 H2. rewrite !lookup_insert_ne by congruence. reflexivity.
  - unfold _is_old_style_keyword_message, has_key. simpl.
    rewrite lookup_insert_ne by discriminate. rewrite lookup_insert_eq. reflexivity.
Qed.

(** ** Registration of vocabulary *)

(** X2. An old-style keyword message without [end] makes the registration
    handler raise [KeyError('end')] after it has logged the deprecation
    warning: the adapt service is not called and nothing is added to the
    registered vocabulary, but the message keeps the [entity_value] that the
    upgrade had already written. *)
Theorem register_vocab_old_style_without_end message self (x : X) :
  _is_old_style_keyword_message message = true ->
  data message !! "end" = None ->
  let run := handle_register_vocab env backends message self x in
  fst run = inl (KeyError "end") ∧
  snd (snd run) = x ∧
  registered_vocab (snd (fst (snd run))) = registered_vocab self ∧
  skill_names (snd (fst (snd run))) = skill_names self ∧
  warnings (snd (fst (snd run))) = warnings self ++ [deprecated_keywords] ∧
  data (fst (fst (snd run))) = <["entity_value" := dict_get (data message) "start"]> (data message).
Proof.
  intros Hold Hend run. subst run. unfold handle_register_vocab. rewrite Hold.
  unfold _is_old_style_keyword_message, has_key in Hold.
  unfold _update_keyword_message, dict_get.
  destruct (data message !! "start") as [start|] eqn:Hstart;
    [|rewrite andb_false_r in Hold; discriminate].
  simpl. rewrite lookup_insert_ne by discriminate. rewrite Hend. simpl.
  repeat split.
Qed.

Lemma register_vocab_growth message self (x : X) :
  let run := handle_register_vocab env backends message self x in
  registered_vocab (snd (fst (snd run))) =
    registered_vocab self ++
    match fst run with
    | inr _ => [data (fst (fst (snd run)))]
    | inl _ => []
    end.
Proof.
  intros run. subst run. unfold handle_register_vocab.
  destruct (_is_old_style_keyword_message message).
  - destruct (_update_keyword_message message) as [[e|[]] m']; simpl.
    + rewrite app_nil_r. reflexivity.
    + destruct (adapt_register_vocabulary _ _ _ _ _ _ _) as [[e|[]] x']; simpl;
        rewrite ?app_nil_r; reflexivity.
  - simpl.
    destruct (adapt_register_vocabulary _ _ _ _ _ _ _) as [[e|[]] x']; simpl;
      rewrite ?app_nil_r; reflexivity.
Qed.

(** X3. The registration handler adds to the registered vocabulary exactly
    when it returns, and then it adds one entry, at the end: the data of the
    message as the handler leaves it.  It never touches the skill names.  A
    message that is not old-style is left as it was and logs no warning, and
    the adapt service is then called with the four items of its data, [None]
    for a missing one, and with the language of the message. *)
Theorem register_vocab_appends_on_return message self (x : X) :
  let run := handle_register_vocab env backends message self x in
  let message' := fst (fst (snd run)) in
  let self' := snd (fst (snd run)) in
  skill_names self' = skill_names self ∧
  registered_vocab self' =
    registered_vocab self ++
    match fst run with
    | inr _ => [data message']
    | inl _ => []
    end ∧
  (_is_old_style_keyword_message message = false ->
   message' = message ∧ warnings self' = warnings self ∧
   fst run =
     fst (adapt_register_vocabulary backends
            (dict_get (data message) "entity_value")
            (dict_get (data message) "entity_type")
            (dict_get (data message) "alias_of")
            (dict_get (data message) "regex")
            (get_message_lang env message) x) ∧
   snd (snd run) =
     snd (adapt_register_vocabulary backends
            (dict_get (data message) "entity_value")
            (dict_get (data message) "entity_type")
            (dict_get (data message) "alias_of")
            (dict_get (data message) "regex")
            (get_message_lang env message) x)).
Proof.
  intros run message' self'. subst run message' self'.
  unfold handle_register_vocab.
  destruct (_is_old_style_keyword_message message) eqn:Hold.
  - destruct (_update_keyword_message message) as [[e|[]] m']; simpl.
    + rewrite app_nil_r. repeat split; try reflexivity; try discriminate.
    + destruct (adapt_register_vocabulary _ _ _ _ _ _ _) as [[e|[]] x']; simpl;
        rewrite ?app_nil_r; repeat split; try reflexivity; try discriminate.
  - simpl.
    destruct (adapt_register_vocabulary _ _ _ _ _ _ _) as [[e|[]] x']; simpl;
      rewrite ?app_nil_r; repeat split; try reflexivity.
Qed.

(** X4. After a registration that returned, the vocabulary manifest is one
    event of type [intent.service.adapt.vocab.manifest] whose [vocab] lists
    the vocabulary registered before followed by the data of the message just
    registered. *)
Theorem vocab_manifest_after_registration message query self (x : X) (w : World X) :
  let run := handle_register_vocab env backends message self x in
  fst run = inr tt ->
  let self' := snd (fst (snd run)) in
  let message' := fst (fst (snd run)) in
  let manifest := handle_vocab_manifest env self' query w in
  fst manifest = inr tt ∧
  published (snd manifest) =
    published w ++
    [mkMessage "intent.service.adapt.vocab.manifest"
       {[ "vocab" :=
            VList (map dict_value (registered_vocab self) ++
                   [dict_value (data message')]) ]}
       (reply_context env (context query))].
Proof.
  intros run Hrun self' message' manifest.
  assert (Hv := register_vocab_growth message self x).
  fold run in Hv. simpl in Hv. rewrite Hrun in Hv.
  subst manifest self' message'. unfold handle_vocab_manifest, bus_emit, publish,
    modify, reply, published. simpl. rewrite Hv, emitted_app, map_app. simpl.
  split; reflexivity.
Qed.

End RegistryProperties.

Section SkillNames.

(** ** Skill names *)

(** X5. Once a skill has announced its name, [get_skill_name] of its id is
    that name, also when the id had a name before, and the name found for any
    id with another key is what it was. *)
Theorem skill_name_round_trip message self id name k :
  data message !! "id" = Some id ->
  data message !! "name" = Some name ->
  key_of id = Some k ->
  let run := update_skill_name_dict message self in
  fst run = inr tt ∧
  get_skill_name (snd run) id = inr name ∧
  registered_vocab (snd run) = registered_vocab self ∧
  (forall other k', key_of other = Some k' -> k' ≠ k ->
     get_skill_name (snd run) other = get_skill_name self other).
Proof.
  intros Hid Hname Hk run. subst run. unfold update_skill_name_dict.
  rewrite Hname, Hid, Hk. simpl. repeat split.
  - unfold get_skill_name. rewrite Hk. simpl. rewrite lookup_insert_eq. reflexivity.
  - intros other k' Hk' Hne. unfold get_skill_name. rewrite Hk'. simpl.
    rewrite lookup_insert_ne by congruence. reflexivity.
Qed.

(** X6. [get_skill_name] of an id that no skill has announced is the id
    itself; it raises only for an id that cannot be a dict key.  An
    announcement without [name] raises [KeyError('name')], whether it has an
    [id] or not, one with a name and no [id] raises [KeyError('id')], and in
    both cases, as for an id that cannot be a key, the skill names are left as
    they were. *)
Theorem skill_name_defaults_and_errors message self :
  (forall id k, key_of id = Some k -> skill_names self !! k = None ->
     get_skill_name self id = inr id) ∧
  (forall id, (∃ e, get_skill_name self id = inl e) <-> key_of id = None) ∧
  (data message !! "name" = None ->
     update_skill_name_dict message self = (inl (KeyError "name"), self)) ∧
  (forall name, data message !! "name" = Some name -> data message !! "id" = None ->
     update_skill_name_dict message self = (inl (KeyError "id"), self)) ∧
  (forall e, fst (update_skill_name_dict message self) = inl e ->
     snd (update_skill_name_dict message self) = self).
Proof.
  split; [|split; [|split; [|split]]].
  - intros id k Hk Hnone. unfold get_skill_name. rewrite Hk, Hnone. reflexivity.
  - intros id. unfold get_skill_name. destruct (key_of id); split.
    + intros [e [=]].
    + intros [=].
    + reflexivity.
    + intros _. eexists. reflexivity.
  - intros Hname. unfold update_skill_name_dict. rewrite Hname. reflexivity.
  - intros name Hname Hid. unfold update_skill_name_dict. rewrite Hname, Hid. reflexivity.
  - intros e. unfold update_skill_name_dict.
    destruct (data message !! "name"); [|reflexivity].
    destruct (data message !! "id") as [id|]; [|reflexivity].
    destruct (key_of id); [intros [=]|reflexivity].
Qed.

End SkillNames.

Section IntentsAPIProperties.

Context {X : Type} (env : Collaborators X) (backends : Backends X).

(** ** Querying the pipeline: [handle_get_intent] *)

Lemma get_intent_loop_run stages utterance l message : forall w : World X,
  let run := get_intent_loop env stages utterance l message w in
  ∃ invoked,
    calls (snd run) = calls w ++ invoked ∧
    map fst invoked `prefix_of` stages ∧
    match fst run with
    | inr false =>
        map fst invoked = stages ∧ Forall declined invoked ∧ bus (snd run) = bus w
    | inr true =>
        ∃ before f m,
          invoked = before ++ [(f, Matched m)] ∧ Forall declined before ∧
          bus (snd run) =
            bus w ++
            match if_truthy (intent_type m) with
            | Some ty =>
                [Emit (intent_reply env message (dict_value (intent_reply_data m ty f)))]
            | None => []
            end
    | inl e =>
        ∃ before f,
          invoked = before ++ [(f, Faulted e)] ∧ Forall declined before ∧
          bus (snd run) = bus w
    end.
Proof.
  induction stages as [|f stages IH]; intros w; simpl.
  - exists []. rewrite app_nil_r. repeat split; try reflexivity. constructor.
  - rewrite run_bind, call_matcher_run.
    destruct (interpret env f (VList [utterance]) l message (plugins w))
      as [[e|[m|]] x] eqn:Hf; simpl.
    + exists [(f, Faulted e)]. repeat split; try reflexivity.
      * apply prefix_cons, prefix_nil.
      * exists [], f. repeat split; constructor.
    + exists [(f, Matched m)].
      destruct (if_truthy (intent_type m)) as [ty|] eqn:Hty; simpl;
        (split; [reflexivity|]); (split; [apply prefix_cons, prefix_nil|]);
        exists [], f, m; rewrite Hty; simpl; rewrite ?app_nil_r;
        repeat split; constructor.
    + match goal with |- context [get_intent_loop env stages utterance l message ?w1] =>
        destruct (IH w1) as (inv & Hc & Hp & Hr) end.
      simpl in *. exists ((f, Declined) :: inv).
      rewrite Hc, <- app_assoc. split; [reflexivity|].
      split; [simpl; apply prefix_cons; exact Hp|].
      destruct (fst (get_intent_loop env stages utterance l message _)) as [e|[|]].
      * destruct Hr as (before & g & -> & Hd & Hb).
        exists ((f, Declined) :: before), g. repeat split; try assumption.
        constructor; [reflexivity|exact Hd].
      * destruct Hr as (before & g & m & -> & Hd & Hb).
        exists ((f, Declined) :: before), g, m. repeat split; try assumption.
        constructor; [reflexivity|exact Hd].
      * destruct Hr as (Hm & Hd & Hb). repeat split; try assumption.
        -- simpl. f_equal. exact Hm.
        -- constructor; [reflexivity|exact Hd].
Qed.

Lemma SessionManager_get_run message (w : World X) :
  let run := SessionManager_get env message w in
  let sid := event_session_id message in
  fst run = inr sid ∧
  bus (snd run) = bus w ∧ log (snd run) = log w ∧ clock (snd run) = clock w ∧
  calls (snd run) = calls w ∧ plugins (snd run) = plugins w ∧
  read_session env sid (snd run) = read_session env sid w.
Proof.
  unfold SessionManager_get, write_session, set_sessions. simpl.
  repeat split. destruct w as [b l ss t k x]. apply read_session_insert_eq.
Qed.

(** What [handle_get_intent] does for a query that has an utterance, by what
    the pipeline of the session resolves to and by what the matchers tried
    came out with. *)
Lemma handle_get_intent_run message utterance (w : World X) :
  data message !! "utterance" = Some utterance ->
  let run := handle_get_intent env message w in
  let names :=
    configured_stages get_intent_skips
      (pipeline (read_session env (event_session_id message) w)) in
  match resolve_stages env names with
  | inl e => fst run = inl e ∧ calls (snd run) = calls w ∧ bus (snd run) = bus w
  | inr stages =>
      ∃ invoked,
        calls (snd run) = calls w ++ invoked ∧
        map fst invoked `prefix_of` stages ∧
        ((Forall declined invoked ∧ map fst invoked = stages ∧
          fst run = inr tt ∧
          bus (snd run) = bus w ++ [Emit (intent_reply env message VNone)]) ∨
         (∃ before f m,
            invoked = before ++ [(f, Matched m)] ∧ Forall declined before ∧
            fst run = inr tt ∧
            bus (snd run) =
              bus w ++
              match if_truthy (intent_type m) with
              | Some ty =>
                  [Emit (intent_reply env message (dict_value (intent_reply_data m ty f)))]
              | None => []
              end) ∨
         (∃ before f e,
            invoked = before ++ [(f, Faulted e)] ∧ Forall declined before ∧
            fst run = inl e ∧ bus (snd run) = bus w))
  end.
Proof.
  intros Hu run names. subst run. unfold handle_get_intent. rewrite Hu.
  rewrite run_bind.
  destruct (SessionManager_get_run message w) as (Hs & Hb1 & _ & _ & Hc1 & _ & Hr1).
  destruct (SessionManager_get env message w) as [r w1]. simpl in Hs, Hb1, Hc1, Hr1.
  subst r. rewrite run_bind.
  destruct (get_pipeline_run env (Some get_intent_skips) (event_session_id message) w1)
    as (Hp & Hb2 & _ & _ & Hc2 & _).
  simpl in Hp. rewrite Hr1 in Hp. fold names in Hp.
  destruct (get_pipeline env (Some get_intent_skips) (event_session_id message) w1)
    as [r w2]. simpl in Hp, Hb2, Hc2. subst r.
  destruct (resolve_stages env names) as [e|stages].
  - simpl. rewrite Hc2, Hc1, Hb2, Hb1. repeat split.
  - rewrite run_bind.
    destruct (get_intent_loop_run stages utterance (get_message_lang env message)
                message w2) as (inv & Hc & Hpre & Hr).
    destruct (get_intent_loop env stages utterance (get_message_lang env message)
                message w2) as [[e|[|]] w3]; simpl in Hc, Hr; simpl;
      exists inv; rewrite Hc, Hc2, Hc1; (split; [reflexivity|]); (split; [exact Hpre|]).
    + right; right. destruct Hr as (before & f & Hi & Hd & Hb).
      exists before, f, e. rewrite Hb, Hb2, Hb1. repeat split; assumption.
    + right; left. destruct Hr as (before & f & m & Hi & Hd & Hb).
      exists before, f, m. rewrite Hb, Hb2, Hb1. repeat split; assumption.
    + left. destruct Hr as (Hm & Hd & Hb). rewrite Hb, Hb2, Hb1.
      repeat split; assumption.
Qed.

Lemma matchers_elem k f :
  matchers env !! k = Some f ->
  (k, f) ∈
    [ ("converse", converse_with_skills);
      ("padatious_high", match_high (padatious_matcher env));
      ("padacioso_high", match_high PadaciosoService);
      ("adapt", adapt_match_intent);
      ("common_qa", common_qa_match);
      ("fallback_high", fallback_high_prio);
      ("padatious_medium", match_medium (padatious_matcher env));
      ("padacioso_medium", match_medium PadaciosoService);
      ("fallback_medium", fallback_medium_prio);
      ("padatious_low", match_low (padatious_matcher env));
      ("padacioso_low", match_low PadaciosoService);
      ("fallback_low", fallback_low_prio) ].
Proof. unfold matchers. apply elem_of_list_to_map_2. Qed.

Lemma not_skipped_not_converse_or_fallback k f :
  matchers env !! k = Some f -> str_in k get_intent_skips = false ->
  converse_or_fallback f = false.
Proof.
  intros Hk Hs. apply matchers_elem in Hk.
  repeat (apply elem_of_cons in Hk as [Hk|Hk];
          [injection Hk as -> ->; first [reflexivity | discriminate Hs]|]).
  inversion Hk.
Qed.

Lemma configured_stages_not_skipped skips names :
  Forall (fun k => str_in k skips = false) (configured_stages skips names).
Proof.
  unfold configured_stages. apply List.Forall_forall. intros k Hin.
  apply filter_In in Hin as [_ H]. apply negb_true_iff in H. exact H.
Qed.

(** X7. Whatever the pipeline of the session, an intent query never invokes
    the converse matcher nor a fallback matcher. *)
Theorem get_intent_never_converses_nor_falls_back message (w : World X) :
  let run := handle_get_intent env message w in
  ∃ invoked,
    calls (snd run) = calls w ++ invoked ∧
    Forall (fun c => converse_or_fallback (fst c) = false) invoked.
Proof.
  intros run. subst run.
  destruct (data message !! "utterance") as [u|] eqn:Hu.
  - assert (H := handle_get_intent_run message u w Hu). simpl in H.
    destruct (resolve_stages env _) as [e|stages] eqn:Hres.
    + destruct H as (_ & Hc & _). exists []. rewrite Hc, app_nil_r.
      split; [reflexivity|constructor].
    + destruct H as (inv & Hc & [rest Hpre] & _). exists inv. split; [exact Hc|].
      apply resolve_stages_lookup in Hres.
      assert (Hst : Forall (fun f => converse_or_fallback f = false) stages).
      { eapply (Forall2_Forall_r _ _ _ _ Hres).
        eapply Forall_impl; [apply configured_stages_not_skipped|].
        intros k Hk f Hf. simpl in Hk.
        exact (not_skipped_not_converse_or_fallback k f Hf Hk). }
      rewrite Hpre in Hst. apply Forall_app in Hst as [Hst _].
      apply Forall_fmap in Hst. exact Hst.
  - unfold handle_get_intent. rewrite Hu. exists []. simpl. rewrite app_nil_r.
    split; [reflexivity|constructor].
Qed.

Lemma matched_not_declined before f m :
  Forall declined before -> (f, Matched m) ∈ before -> False.
Proof.
  intros Hd Hin. rewrite Forall_forall in Hd.
  specialize (Hd _ Hin). discriminate Hd.
Qed.

Lemma last_call_inv (a b : list (Matcher * StageOutcome)) x y :
  a ++ [x] = b ++ [y] -> a = b ∧ x = y.
Proof. intros H. apply app_inj_tail in H. exact H. Qed.

(** X8. An intent query whose pipeline resolves and for which every matcher
    invoked declines has tried all the stages that are not skipped, returns,
    and is answered by exactly one event, [intent.service.intent.reply], whose
    [intent] is [None]. *)
Theorem get_intent_reports_failure message utterance (w : World X) stages invoked :
  data message !! "utterance" = Some utterance ->
  resolve_stages env
    (configured_stages get_intent_skips
       (pipeline (read_session env (event_session_id message) w))) = inr stages ->
  let run := handle_get_intent env message w in
  calls (snd run) = calls w ++ invoked ->
  Forall declined invoked ->
  fst run = inr tt ∧
  map fst invoked = stages ∧
  bus (snd run) = bus w ++ [Emit (intent_reply env message VNone)].
Proof.
  intros Hu Hres run Hcalls Hd. subst run.
  assert (H := handle_get_intent_run message utterance w Hu). simpl in H.
  rewrite Hres in H. destruct H as (inv & Hc & _ & H).
  rewrite Hc in Hcalls. apply app_inv_head in Hcalls. subst inv.
  destruct H as [(_ & Hm & Hr & Hb)|[(before & f & m & -> & _ & _)
                                    |(before & f & e & -> & _ & _)]].
  - repeat split; assumption.
  - exfalso. apply (matched_not_declined _ f m Hd).
    apply elem_of_app. right. apply list_elem_of_singleton. reflexivity.
  - exfalso. apply (faulted_not_declined _ f e Hd).
    apply elem_of_app. right. apply list_elem_of_singleton. reflexivity.
Qed.

(** X9. An intent query that ends on a match returns.  When the intent type
    of the match is neither [None] nor empty it is answered by exactly one
    event, [intent.service.intent.reply], whose [intent] is the intent data of
    the match in which [intent_name], [intent_service], [skill_id] and
    [handler] are set to the intent type, the service and the skill of the
    match and to the name of the matcher, replacing items of these names that
    the intent data had; every other item is that of the intent data.  When
    the intent type is [None] or empty, nothing is published, not even the
    answer for a failure. *)
Theorem get_intent_reports_match message (w : World X) before f m :
  let run := handle_get_intent env message w in
  calls (snd run) = calls w ++ before ++ [(f, Matched m)] ->
  fst run = inr tt ∧
  match if_truthy (intent_type m) with
  | Some ty =>
      ∃ d,
        bus (snd run) = bus w ++ [Emit (intent_reply env message (dict_value d))] ∧
        d !! "intent_name" = Some (VStr ty) ∧
        d !! "intent_service" = Some (VStr (intent_service m)) ∧
        d !! "skill_id" = Some (str_or_none (skill_id m)) ∧
        d !! "handler" = Some (VStr (matcher_name f)) ∧
        (forall k, k ≠ "intent_name" -> k ≠ "intent_service" -> k ≠ "skill_id" ->
                   k ≠ "handler" -> d !! k = intent_data m !! k)
  | None => bus (snd run) = bus w
  end.
Proof.
  intros run Hcalls. subst run.
  destruct (data message !! "utterance") as [u|] eqn:Hu.
  2:{ exfalso. unfold handle_get_intent in Hcalls. rewrite Hu in Hcalls.
      simpl in Hcalls. rewrite <- (app_nil_r (calls w)) in Hcalls at 1.
      apply app_inv_head in Hcalls. destruct before; discriminate. }
  assert (H := handle_get_intent_run message u w Hu). simpl in H.
  destruct (resolve_stages env _) as [e|stages].
  { exfalso. destruct H as (_ & Hc & _). rewrite Hc in Hcalls.
    rewrite <- (app_nil_r (calls w)) in Hcalls at 1.
    apply app_inv_head in Hcalls. destruct before; discriminate. }
  destruct H as (inv & Hc & _ & H).
  rewrite Hc in Hcalls. apply app_inv_head in Hcalls. subst inv.
  destruct H as [(Hd & _)|[(before' & f' & m' & Hi & _ & Hr & Hb)
                          |(before' & f' & e & Hi & _ & _)]].
  - exfalso. apply (matched_not_declined _ f m Hd).
    apply elem_of_app. right. apply list_elem_of_singleton. reflexivity.
  - apply last_call_inv in Hi as [_ [= -> ->]]. split; [exact Hr|].
    destruct (if_truthy (intent_type m')) as [ty|].
    + exists (intent_reply_data m' ty f'). split; [exact Hb|].
      unfold intent_reply_data. repeat split.
      * rewrite !lookup_insert_ne by discriminate. apply lookup_insert_eq.
      * rewrite !lookup_insert_ne by discriminate. apply lookup_insert_eq.
      * rewrite !lookup_insert_ne by discriminate. apply lookup_insert_eq.
      * apply lookup_insert_eq.
      * intros k H1 H2 H3 H4. rewrite !lookup_insert_ne by congruence. reflexivity.
    + rewrite Hb. apply app_nil_r.
  - apply last_call_inv in Hi as [_ [=]].
Qed.

(** X10. An intent query has no recovery boundary of its own.  Without an
    [utterance] it raises [KeyError('utterance')] and does nothing else; when
    a matcher raises, the exception comes out of the handler; when a stage
    name that is not skipped is unknown, [KeyError] comes out of it before any
    matcher is invoked.  In none of these cases is an answer published. *)
Theorem get_intent_propagates_errors message (w : World X) :
  let run := handle_get_intent env message w in
  (data message !! "utterance" = None -> run = (inl (KeyError "utterance"), w)) ∧
  (forall before f e,
     calls (snd run) = calls w ++ before ++ [(f, Faulted e)] ->
     fst run = inl e ∧ bus (snd run) = bus w) ∧
  (forall utterance k,
     data message !! "utterance" = Some utterance ->
     k ∈ configured_stages get_intent_skips
           (pipeline (read_session env (event_session_id message) w)) ->
     matchers env !! k = None ->
     ∃ k', matchers env !! k' = None ∧ fst run = inl (KeyError k') ∧
           calls (snd run) = calls w ∧ bus (snd run) = bus w).
Proof.
  intros run. subst run. split; [|split].
  - intros Hu. unfold handle_get_intent. rewrite Hu. reflexivity.
  - intros before f e Hcalls.
    destruct (data message !! "utterance") as [u|] eqn:Hu.
    2:{ exfalso. unfold handle_get_intent in Hcalls. rewrite Hu in Hcalls.
        simpl in Hcalls. rewrite <- (app_nil_r (calls w)) in Hcalls at 1.
        apply app_inv_head in Hcalls. destruct before; discriminate. }
    assert (H := handle_get_intent_run message u w Hu). simpl in H.
    destruct (resolve_stages env _) as [e'|stages].
    { exfalso. destruct H as (_ & Hc & _). rewrite Hc in Hcalls.
      rewrite <- (app_nil_r (calls w)) in Hcalls at 1.
      apply app_inv_head in Hcalls. destruct before; discriminate. }
    destruct H as (inv & Hc & _ & H).
    rewrite Hc in Hcalls. apply app_inv_head in Hcalls. subst inv.
    destruct H as [(Hd & _)|[(before' & f' & m' & Hi & _)
                            |(before' & f' & e' & Hi & _ & Hr & Hb)]].
    + exfalso. apply (faulted_not_declined _ f e Hd).
      apply elem_of_app. right. apply list_elem_of_singleton. reflexivity.
    + apply last_call_inv in Hi as [_ [=]].
    + apply last_call_inv in Hi as [_ [= -> ->]]. split; assumption.
  - intros u k Hu Hin Hk.
    assert (H := handle_get_intent_run message u w Hu). simpl in H.
    destruct (resolve_stages_unknown env _ k Hin Hk) as (k' & Hres & _ & Hk').
    rewrite Hres in H. destruct H as (Hr & Hc & Hb).
    exists k'. repeat split; assumption.
Qed.

End IntentsAPIProperties.

Section QueryProperties.

Context {X : Type} (env : Collaborators X) (backends : Backends X).

(** ** Querying adapt and padacioso *)

Lemma call_ext_run {A} (c : X -> (PyExc + A) * X) (w : World X) :
  call_ext c w =
  (fst (c (plugins w)),
   mkWorld (bus w) (log w) (sessions w) (clock w) (calls w) (snd (c (plugins w)))).
Proof. unfold call_ext. destruct (c (plugins w)); reflexivity. Qed.

(** X11. An adapt query with an utterance calls the adapt matcher, once, on
    the one-element list of that utterance, whatever the pipeline of the
    session, and touches no session.  When adapt returns, the query is
    answered by exactly one event, [intent.service.adapt.reply], whose
    [intent] is the intent data of the match, or [None] without a match;
    when adapt raises, the exception comes out of the handler and nothing is
    published. *)
Theorem get_adapt_asks_adapt_once message utterance (w : World X) :
  data message !! "utterance" = Some utterance ->
  let run := handle_get_adapt env message w in
  let asked :=
    interpret env adapt_match_intent (VList [utterance])
              (get_message_lang env message) message (plugins w) in
  calls (snd run) = calls w ++ [(adapt_match_intent, outcome_of (fst asked))] ∧
  plugins (snd run) = snd asked ∧
  sessions (snd run) = sessions w ∧
  match fst asked with
  | inl e => fst run = inl e ∧ bus (snd run) = bus w
  | inr found =>
      fst run = inr tt ∧
      bus (snd run) =
        bus w ++
        [Emit (mkMessage "intent.service.adapt.reply"
                 {[ "intent" :=
                      match found with
                      | Some m => dict_value (intent_data m)
                      | None => VNone
                      end ]}
                 (reply_context env (context message)))]
  end.
Proof.
  intros Hu run asked. subst run asked. unfold handle_get_adapt. rewrite Hu.
  rewrite run_bind, call_matcher_run.
  destruct (interpret env adapt_match_intent _ _ _ _) as [[e|[m|]] x]; simpl;
    repeat split.
Qed.

(** X12. A padatious query asks padacioso about the utterance first.  The
    normalised utterance [norm_utt] is tried only when that found nothing and
    [norm_utt] is there and differs from the utterance; the answer then
    carries what the second call found.  In every case in which padacioso
    does not raise, exactly one event, [intent.service.padatious.reply], is
    published, whose [intent] is the intent found or [None]. *)
Theorem get_padatious_tries_norm_last message utterance (w : World X) :
  data message !! "utterance" = Some utterance ->
  let run := handle_get_padatious env backends message w in
  let first := padacioso_calc_intent backends utterance (plugins w) in
  let norm := dict_get_or (data message) "norm_utt" utterance in
  let answer (intent : Value) :=
    Emit (mkMessage "intent.service.padatious.reply" {[ "intent" := intent ]}
            (reply_context env (context message))) in
  (forall d, fst first = inr (Some d) ->
     fst run = inr tt ∧ plugins (snd run) = snd first ∧
     bus (snd run) = bus w ++ [answer (dict_value d)]) ∧
  (fst first = inr None -> value_eqb norm utterance = true ->
     fst run = inr tt ∧ plugins (snd run) = snd first ∧
     bus (snd run) = bus w ++ [answer VNone]) ∧
  (fst first = inr None -> value_eqb norm utterance = false ->
     let second := padacioso_calc_intent backends norm (snd first) in
     plugins (snd run) = snd second ∧
     match fst second with
     | inr found =>
         fst run = inr tt ∧
         bus (snd run) =
           bus w ++
           [answer match found with Some d => dict_value d | None => VNone end]
     | inl e => fst run = inl e ∧ bus (snd run) = bus w
     end) ∧
  (forall e, fst first = inl e ->
     fst run = inl e ∧ plugins (snd run) = snd first ∧ bus (snd run) = bus w).
Proof.
  intros Hu run first norm answer. subst run first norm answer.
  unfold handle_get_padatious. rewrite Hu. rewrite run_bind, call_ext_run.
  destruct (padacioso_calc_intent backends utterance (plugins w)) as [[e|[d|]] x1];
    simpl.
  - split; [intros d [=]|]. split; [intros [=]|]. split; [intros [=]|].
    intros e' [= <-]. repeat split.
  - split; [|split; [intros [=]|split; [intros [=]|intros e [=]]]].
    intros d' [= <-]. repeat split.
  - split; [intros d [=]|]. split; [|split; [|intros e [=]]].
    + intros _ Heq. rewrite Heq. simpl. repeat split.
    + intros _ Hne. rewrite Hne. simpl. rewrite run_bind, call_ext_run. simpl.
      destruct (padacioso_calc_intent backends _ x1) as [[e|[d|]] x2]; simpl;
        repeat split.
Qed.

End QueryProperties.

Section PipelineProperties.

Context {X : Type} (env : Collaborators X).

(** ** More on the pipeline and on the utterance handler *)

Lemma configured_stages_sublist skips names :
  configured_stages skips names `sublist_of` names.
Proof.
  unfold configured_stages. induction names as [|k names IH]; simpl.
  - constructor.
  - destruct (negb (str_in k skips)); [apply sublist_skip|apply sublist_cons]; exact IH.
Qed.

Lemma resolve_stages_known names :
  Forall (fun k => is_Some (matchers env !! k)) names ->
  ∃ stages, resolve_stages env names = inr stages.
Proof.
  induction 1 as [|k names [f Hf] _ [stages IH]]; simpl.
  - eexists; reflexivity.
  - rewrite Hf, IH. eexists; reflexivity.
Qed.

(** X13. The names in [skips] are left out of the pipeline before any name is
    looked up: the names kept are those of the session's pipeline that are not
    skipped, in their order, and an unknown name that is skipped does not make
    [get_pipeline] raise.  When every name kept is known, [get_pipeline]
    returns their matchers, in order. *)
Theorem get_pipeline_ignores_skipped skips sess (w : World X) :
  let names := pipeline (read_session env sess w) in
  let kept := configured_stages (default [] skips) names in
  Forall (fun k => k ∉ default [] skips) kept ∧
  kept `sublist_of` names ∧
  (forall k, k ∈ names -> k ∉ default [] skips -> k ∈ kept) ∧
  ((forall k, k ∈ names -> k ∉ default [] skips -> is_Some (matchers env !! k)) ->
   ∃ stages,
     fst (get_pipeline env skips sess w) = inr stages ∧
     Forall2 (fun k f => matchers env !! k = Some f) kept stages).
Proof.
  intros names kept. split; [|split; [|split]].
  - eapply Forall_impl; [apply configured_stages_not_skipped|].
    intros k Hk. apply str_in_not_elem_of. exact Hk.
  - apply configured_stages_sublist.
  - intros k Hin Hs. subst kept. unfold configured_stages.
    apply list_elem_of_In, filter_In. split; [apply list_elem_of_In; exact Hin|].
    apply negb_true_iff, str_in_not_elem_of. exact Hs.
  - intros Hknown.
    assert (Hall : Forall (fun k => is_Some (matchers env !! k)) kept).
    { apply Forall_forall. intros k Hk. apply Hknown.
      - eapply elem_of_sublist; [exact Hk|apply configured_stages_sublist].
      - assert (H := configured_stages_not_skipped (default [] skips) names).
        rewrite Forall_forall in H. apply str_in_not_elem_of, H. exact Hk. }
    destruct (resolve_stages_known kept Hall) as [stages Hres].
    exists stages. split; [|apply resolve_stages_lookup; exact Hres].
    destruct (get_pipeline_run env skips sess w) as [Hr _].
    fold names kept in Hr. rewrite Hres in Hr. exact Hr.
Qed.

(** X14. Without padatious, no stage of a pipeline is a matcher of
    [PadatiousMatcher]: the padatious names resolve to the matchers of
    padacioso.  The warning about it is logged when some name of the session's
    pipeline contains "padatious", also when that name is skipped and when the
    pipeline does not resolve; with padatious installed, [get_pipeline] logs
    nothing. *)
Theorem padatious_falls_back_to_padacioso skips sess (w : World X) :
  let run := get_pipeline env skips sess w in
  (padatious_installed env = false ->
   (forall stages, fst run = inr stages ->
      Forall (fun f => uses_padatious f = false) stages) ∧
   (forall k, k ∈ pipeline (read_session env sess w) ->
      str_contains "padatious" k = true ->
      log (snd run) = log w ++ [LogPadatiousUnavailable])) ∧
  (padatious_installed env = true -> log (snd run) = log w).
Proof.
  intros run. subst run. split.
  - intros Hno. split.
    + intros stages Hr.
      destruct (get_pipeline_run env skips sess w) as [Hp _]. rewrite Hr in Hp.
      destruct (resolve_stages env _) as [e|fs] eqn:Hres; [discriminate|].
      injection Hp as ->. apply resolve_stages_lookup in Hres.
      eapply (Forall2_Forall_r _ _ _ _ Hres).
      apply Forall_forall. intros k _ f Hf.
      apply matchers_elem in Hf. unfold padatious_matcher in Hf.
      rewrite Hno in Hf.
      repeat (apply elem_of_cons in Hf as [Hf|Hf];
              [injection Hf as _ ->; reflexivity|]).
      inversion Hf.
    + intros k Hin Hk. unfold get_pipeline. rewrite run_bind. simpl.
      rewrite Hno. simpl.
      assert (He : existsb (str_contains "padatious")
                     (pipeline (read_session env sess w)) = true).
      { apply existsb_exists. exists k. split; [apply list_elem_of_In; exact Hin|exact Hk]. }
      rewrite He. simpl. destruct (resolve_stages env _); reflexivity.
  - intros Hyes. unfold get_pipeline. rewrite run_bind. simpl. rewrite Hyes. simpl.
    destruct (resolve_stages env _); reflexivity.
Qed.

(** X15. The language that disambiguation returns is an enabled language or
    the language of the message; disambiguation only logs: the bus, the
    sessions, the calls and the state of the plugins are as they were. *)
Theorem disambiguate_lang_enabled_or_default message (w : World X) :
  let run := disambiguate_lang env message w in
  (∃ v, fst run = inr v ∧
        (v ∈ get_valid_languages env ∨ v = get_message_lang env message)) ∧
  bus (snd run) = bus w ∧ sessions (snd run) = sessions w ∧
  calls (snd run) = calls w ∧ plugins (snd run) = plugins w.
Proof.
  intros run. subst run. split.
  - destruct (disambiguate_lang_loop_run env (get_message_lang env message)
                (get_valid_languages env) message lang_keys w)
      as (rej & [|[k v] rest] & _ & _ & H).
    + exists (get_message_lang env message). split; [apply H|right; reflexivity].
    + exists v. split; [apply H|left; apply H].
  - repeat split.
    + apply (keeps_disambiguate env bus message). reflexivity.
    + apply (keeps_disambiguate env sessions message). reflexivity.
    + apply (keeps_disambiguate env calls message). reflexivity.
    + apply (keeps_disambiguate env plugins message). reflexivity.
Qed.

End PipelineProperties.

Section HandlerProperties.

Context {X : Type} (env : Collaborators X).

Lemma syncs_app (a b : list BusEvent) : syncs (a ++ b) = syncs a ++ syncs b.
Proof.
  induction a as [|[m|v] a IH]; simpl; [reflexivity | exact IH | f_equal; exact IH].
Qed.

(** X16. When the pipeline of the session names a stage that is unknown, the
    utterance handler catches the [KeyError], logs it and returns [None]: no
    matcher is invoked and nothing is published, not even the failure events. *)
Theorem misconfigured_pipeline_drops_utterance message (w w1 : World X) m1 l u sess k :
  utterance_setup env message w = (inr (m1, l, u, sess), w1) ->
  k ∈ configured_stages [] (pipeline (read_session env sess w1)) ->
  matchers env !! k = None ->
  let run := handle_utterance env message w in
  ∃ k', matchers env !! k' = None ∧
        fst run = inr None ∧
        (∃ l', log (snd run) = l' ++ [LogException (KeyError k')]) ∧
        calls (snd run) = calls w ∧
        published (snd run) = published w.
Proof.
  intros Hsetup Hin Hk run. subst run.
  destruct (resolve_stages_unknown env _ k Hin Hk) as (k' & Hres & _ & Hk').
  exists k'. split; [exact Hk'|].
  rewrite handle_utterance_run, handle_utterance_try_run, Hsetup.
  assert (Hc1 := keeps_calls_setup env message w).
  assert (Hp1 := keeps_published_setup env message w).
  rewrite Hsetup in Hc1, Hp1. simpl in Hc1, Hp1.
  unfold match_utterance. rewrite run_bind.
  destruct (get_pipeline_run env None sess w1) as (Hr & Hb & _ & _ & Hc & _).
  simpl in Hr. rewrite Hres in Hr.
  destruct (get_pipeline env None sess w1) as [r w2]. simpl in Hr, Hb, Hc.
  subst r. simpl. repeat split.
  - eexists; reflexivity.
  - rewrite Hc. exact Hc1.
  - unfold published in *. simpl. rewrite Hb. exact Hp1.
Qed.

(** X17. When a transformer raises, the utterance handler catches the
    exception, logs it and returns [None] before it has looked at any
    session: the sessions are as they were, no matcher is invoked and nothing
    is published or broadcast. *)
Theorem transformer_fault_drops_utterance message (w : World X) e :
  fst (_handle_transformers env message w) = inl e ->
  let run := handle_utterance env message w in
  fst run = inr None ∧
  (∃ l', log (snd run) = l' ++ [LogException e]) ∧
  sessions (snd run) = sessions w ∧
  calls (snd run) = calls w ∧
  bus (snd run) = bus w.
Proof.
  intros Ht run. subst run.
  rewrite handle_utterance_run, handle_utterance_try_run.
  unfold utterance_setup. rewrite run_bind.
  assert (Hs := keeps_transformers env sessions message ltac:(reflexivity) w).
  assert (Hc := keeps_transformers env calls message ltac:(reflexivity) w).
  assert (Hb := keeps_transformers env bus message ltac:(reflexivity) w).
  destruct (_handle_transformers env message w) as [[e'|m] w1]; [|discriminate].
  simpl in *. injection Ht as ->. repeat split; try assumption.
  eexists; reflexivity.
Qed.

Lemma utterance_setup_quiet message (w w1 : World X) m1 l u sess :
  utterance_setup env message w = (inr (m1, l, u, sess), w1) ->
  sess ≠ "default" -> bus w1 = bus w.
Proof.
  unfold utterance_setup. rewrite run_bind.
  assert (Hb1 := keeps_transformers env bus message ltac:(reflexivity) w).
  destruct (_handle_transformers env message w) as [[e|m] w2]; [discriminate|].
  simpl in Hb1. rewrite run_bind.
  assert (Hb2 := keeps_disambiguate env bus m ltac:(reflexivity) w2).
  destruct (disambiguate_lang env m w2) as [[e|l'] w3]; [discriminate|].
  simpl in Hb2. rewrite run_bind.
  assert (Hb3 : bus (snd (try_except (call_ext (setup_locale env l'))
                            (fun _ => LOG (LogLocaleFailure l')) w3)) = bus w3).
  { unfold try_except. rewrite call_ext_run.
    destruct (setup_locale env l' (plugins w3)) as [[e|[]] x]; reflexivity. }
  destruct (try_except _ _ w3) as [[e|[]] w4]; [discriminate|].
  simpl in Hb3. rewrite run_bind.
  destruct (validate_session_run env m l' w4) as (Hv & _ & _ & Hq).
  destruct (_validate_session env m l' w4) as [r w5]. simpl in Hv, Hq. subst r.
  simpl. intros [= <- <- <- <- <-] Hne.
  destruct (Hq Hne) as [_ Hb4]. rewrite Hb4, Hb3, Hb2, Hb1. reflexivity.
Qed.

Lemma emit_result_syncs match_ message sess (w : World X) :
  let run := emit_result env match_ message sess w in
  (sess ≠ "default" -> broadcasts (snd run) = broadcasts w) ∧
  (sess = "default" ->
   ∃ b, bus (snd run) =
        b ++ [SessionSync (serialize env "default"
                             (read_session env "default" (snd run)))]).
Proof.
  intros run. subst run.
  unfold emit_result, activate_skill, send_complete_intent_failure, bus_emit,
    reply, forward, broadcasts.
  unfold SessionManager_get, SessionManager_sync, update_session, write_session,
    set_sessions, publish, when, modify, gets, mbind, M_bind, mret, M_ret, bind, ret.
  destruct w as [b l ss t k x].
  destruct (String.eqb_spec sess "default") as [->|Hne]; split; intros H;
    try congruence;
    destruct match_ as [m|];
    try destruct (if_truthy (skill_id m)) as [skill|];
    try destruct (if_truthy (intent_type m)) as [ty|];
    cbn -[read_session];
    rewrite ?syncs_app; simpl; rewrite ?app_nil_r;
    try reflexivity; eexists; reflexivity.
Qed.

(** X18. The utterance handler broadcasts the default session only.  For an
    utterance of another session it broadcasts nothing, whatever the outcome.
    For an utterance of the default session that it handles to the end, with
    or without a match, the last event on the bus is a broadcast of the
    default session as the handler leaves it. *)
Theorem handler_syncs_default_session_only message (w w1 : World X) m1 l u sess :
  utterance_setup env message w = (inr (m1, l, u, sess), w1) ->
  let run := handle_utterance env message w in
  (sess ≠ "default" -> broadcasts (snd run) = broadcasts w) ∧
  (sess = "default" ->
   forall r, fst run = inr (Some r) ->
     ∃ b, bus (snd run) =
          b ++ [SessionSync (serialize env "default"
                               (read_session env "default" (snd run)))]).
Proof.
  intros Hsetup run. subst run.
  rewrite handle_utterance_run, handle_utterance_try_run, Hsetup.
  destruct (match_utterance_run env sess None u l m1 w1) as (inv & _ & Hb & _).
  destruct (match_utterance env sess None u l m1 w1) as [[e|mt] w2]; simpl in Hb.
  - split.
    + intros Hne. unfold broadcasts. simpl. rewrite Hb.
      rewrite (utterance_setup_quiet message w w1 m1 l u sess Hsetup Hne). reflexivity.
    + intros _ r [=].
  - destruct (emit_result_syncs mt m1 sess (logged LogMatchingTook w2)) as [Hq Hd].
    assert (Hr : ∃ v, fst (emit_result env mt m1 sess (logged LogMatchingTook w2)) = inr v).
    { destruct mt as [m|]; eexists;
        [apply (emit_result_some env m m1 sess (logged LogMatchingTook w2))
        |apply (emit_result_none env m1 sess (logged LogMatchingTook w2))]. }
    destruct Hr as [v Hr].
    destruct (emit_result env mt m1 sess (logged LogMatchingTook w2)) as [r w3].
    simpl in Hq, Hd, Hr. subst r. simpl. split.
    + intros Hne. rewrite (Hq Hne). unfold broadcasts. simpl. rewrite Hb.
      rewrite (utterance_setup_quiet message w w1 m1 l u sess Hsetup Hne). reflexivity.
    + intros Hdef r _. exact (Hd Hdef).
Qed.

Lemma validate_session_lang message lang_ (w : World X) :
  let run := _validate_session env message lang_ w in
  lang (read_session env (event_session_id message) (snd run)) = lang_ ∧
  clock (snd run) = clock w.
Proof.
  intros run. subst run. unfold _validate_session, SessionManager_get.
  generalize (event_session_id message). intros sid.
  destruct w as [b l ss t k x].
  unfold SessionManager_reset_default_session, SessionManager_update,
    SessionManager_sync, expired, touch, set_lang, update_session, write_session,
    set_sessions, publish, when, modify, gets, mbind, M_bind, mret, M_ret, bind, ret.
  destruct (String.eqb_spec sid "default") as [->|Hne];
    repeat (progress (cbn -[String.eqb read_session Z.ltb];
                      rewrite ?read_session_insert_eq)).
  - set (s0 := read_session env "default" (mkWorld b l ss t k x)).
    destruct (Z.ltb_spec (expiry_deadline s0) t) as [Hexp|Hexp];
      repeat (progress (cbn -[String.eqb read_session Z.ltb];
                        rewrite ?read_session_insert_eq)).
    + unfold fresh_session.
      repeat (progress (cbn -[String.eqb read_session Z.ltb];
                        rewrite ?read_session_insert_eq)).
      destruct (String.eqb_spec lang_ (config_lang env)) as [Hl|Hl];
        repeat (progress (cbn -[String.eqb read_session Z.ltb];
                          rewrite ?read_session_insert_eq));
        split; congruence.
    + destruct (String.eqb_spec lang_ (lang s0)) as [Hl|Hl];
        repeat (progress (cbn -[String.eqb read_session Z.ltb];
                          rewrite ?read_session_insert_eq));
        split; congruence.
  - split; reflexivity.
Qed.

(** X19. What the utterance handler hands to the matchers: the utterances
    that the transformers left in the message, the session that the message
    addresses, whose language is by then the language resolved for the
    utterance, and a message whose context carries that session, serialised,
    under [session]. *)
Theorem setup_hands_over_validated_session message (w w1 : World X) m1 l u sess :
  utterance_setup env message w = (inr (m1, l, u, sess), w1) ->
  u = dict_get_or (data m1) "utterances" (VList []) ∧
  sess = event_session_id m1 ∧
  lang (read_session env sess w1) = l ∧
  context m1 !! "session" = Some (serialize env sess (read_session env sess w1)).
Proof.
  unfold utterance_setup. rewrite run_bind.
  destruct (_handle_transformers env message w) as [[e|m] w2]; [discriminate|].
  rewrite run_bind. destruct (disambiguate_lang env m w2) as [[e|l'] w3]; [discriminate|].
  rewrite run_bind. destruct (try_except _ _ w3) as [[e|[]] w4]; [discriminate|].
  rewrite run_bind.
  destruct (validate_session_run env m l' w4) as [Hv _].
  destruct (validate_session_lang m l' w4) as [Hl _].
  destruct (_validate_session env m l' w4) as [r w5]. simpl in Hv, Hl. subst r.
  simpl. intros [= <- <- <- <- <-]. simpl. repeat split.
  - unfold event_session_id, set_context. simpl.
    rewrite lookup_insert_ne by discriminate. reflexivity.
  - exact Hl.
  - apply lookup_insert_eq.
Qed.

End HandlerProperties.

(** * Sample runs *)

(** ** Dispatch *)

Lemma dispatch_first_match_witness :
  resolve_stages greeting_env
    (configured_stages (default [] None)
       (pipeline (read_session greeting_env "default" short_world)))
  = inr short_stages ∧
  fst (interpret greeting_env adapt_match_intent hello_utterances "en-us"
         hello_utterance tt) = inr (Some hello_match) ∧
  fst (match_utterance greeting_env "default" None hello_utterances
         "en-us" hello_utterance short_world) = inr (Some hello_match) ∧
  calls (snd (match_utterance greeting_env "default" None hello_utterances
                "en-us" hello_utterance short_world)) =
    calls short_world ++
    map (fun g => (g, Declined)) [converse_with_skills] ++
    [(adapt_match_intent, Matched hello_match)].
Proof.
  assert (H : resolve_stages greeting_env
    (configured_stages (default [] None)
       (pipeline (read_session greeting_env "default" short_world)))
    = inr short_stages) by (vm_compute; reflexivity).
  split; [exact H|]. split; [reflexivity|].
  refine (proj1 (proj2 (proj2
    (dispatch_first_match greeting_env "default" None hello_utterances
       "en-us" hello_utterance short_world short_stages H)))
    [converse_with_skills] adapt_match_intent [fallback_low_prio] hello_match
    eq_refl _ _).
  - intros g x Hg. apply list_elem_of_singleton in Hg. subst g. reflexivity.
  - intros x. reflexivity.
Defined.

(** The run of the witness: the second stage matches and the third one is
    never invoked. *)
Example dispatch_stops_at_adapt :
  fst (match_utterance greeting_env "default" None hello_utterances
         "en-us" hello_utterance short_world) = inr (Some hello_match) ∧
  calls (snd (match_utterance greeting_env "default" None hello_utterances
                "en-us" hello_utterance short_world)) =
    [(converse_with_skills, Declined); (adapt_match_intent, Matched hello_match)].
Proof. vm_compute. split; reflexivity. Qed.

Lemma unknown_stage_witness :
  "bogus" ∈ configured_stages (default [] None)
              (pipeline (read_session greeting_env "default" bogus_world)) ∧
  matchers greeting_env !! "bogus" = None ∧
  ∃ k', k' ∈ configured_stages (default [] None)
                (pipeline (read_session greeting_env "default" bogus_world)) ∧
        matchers greeting_env !! k' = None ∧
        fst (get_pipeline greeting_env None "default" bogus_world) = inl (KeyError k') ∧
        fst (match_utterance greeting_env "default" None hello_utterances
               "en-us" hello_utterance bogus_world) = inl (KeyError k') ∧
        calls (snd (match_utterance greeting_env "default" None hello_utterances
                      "en-us" hello_utterance bogus_world)) = calls bogus_world ∧
        plugins (snd (match_utterance greeting_env "default" None hello_utterances
                        "en-us" hello_utterance bogus_world)) = plugins bogus_world.
Proof.
  assert (Hin : "bogus" ∈ configured_stages (default [] None)
              (pipeline (read_session greeting_env "default" bogus_world))).
  { vm_compute. apply list_elem_of_In. simpl. right; left; reflexivity. }
  assert (Hk : matchers greeting_env !! "bogus" = None) by (vm_compute; reflexivity).
  split; [exact Hin|]. split; [exact Hk|].
  exact (proj2 (proj2 (unknown_stage_raises_before_dispatch greeting_env "default" None
           hello_utterances "en-us" hello_utterance bogus_world)) "bogus" Hin Hk).
Defined.

(** ** Language disambiguation *)

Lemma disambiguate_lang_witness :
  (context spanish_utterance !! "stt_lang" = Some (VStr "es-es") ∧
   context spanish_utterance !! "request_lang" = Some (VStr "en-us") ∧
   get_full_lang_code greeting_env (VStr "es-es") = "es-es" ∧
   get_full_lang_code greeting_env (VStr "en-us") = "en-us" ∧
   "es-es" ∈ get_valid_languages greeting_env ∧
   "en-us" ∈ get_valid_languages greeting_env) ∧
  fst (disambiguate_lang greeting_env spanish_utterance new_world) = inr "es-es".
Proof.
  assert (H1 : context spanish_utterance !! "stt_lang" = Some (VStr "es-es"))
    by (vm_compute; reflexivity).
  assert (H2 : context spanish_utterance !! "request_lang" = Some (VStr "en-us"))
    by (vm_compute; reflexivity).
  assert (H3 : get_full_lang_code greeting_env (VStr "es-es") = "es-es") by reflexivity.
  assert (H4 : get_full_lang_code greeting_env (VStr "en-us") = "en-us") by reflexivity.
  assert (H5 : "es-es" ∈ get_valid_languages greeting_env)
    by (apply list_elem_of_In; simpl; right; left; reflexivity).
  assert (H6 : "en-us" ∈ get_valid_languages greeting_env)
    by (apply list_elem_of_In; simpl; left; reflexivity).
  split; [repeat split; assumption|].
  exact (proj2 (proj2 (disambiguate_lang_first_enabled greeting_env spanish_utterance
                         new_world)) H1 H2 H3 H4 H5 H6).
Defined.

(** ** Session validation *)

Lemma validate_session_witness :
  (event_session_id hello_utterance = "default" ∧
   expiry_deadline (read_session greeting_env "default" expired_world)
     < clock expired_world ∧
   active_skills (read_session greeting_env "default" expired_world) = [("skill", 5)] ∧
   active_skills
     (read_session greeting_env "default"
        (snd (_validate_session greeting_env hello_utterance "es-es" expired_world)))
   = [] ∧
   bus (snd (_validate_session greeting_env hello_utterance "es-es" expired_world))
   = bus expired_world ++
     [SessionSync (serialize greeting_env "default"
        (read_session greeting_env "default"
           (snd (_validate_session greeting_env hello_utterance "es-es" expired_world))))]) ∧
  (clock unexpired_world
     <= expiry_deadline (read_session greeting_env "default" unexpired_world) ∧
   "en-us" = lang (read_session greeting_env "default" unexpired_world) ∧
   bus (snd (_validate_session greeting_env hello_utterance "en-us" unexpired_world))
   = bus unexpired_world) ∧
  (event_session_id guest_utterance ≠ "default" ∧
   sessions (snd (_validate_session greeting_env guest_utterance "es-es" new_world))
     !! "guest"
   = Some (mkSession "es-es" [] [] (config_pipeline greeting_env) 600) ∧
   bus (snd (_validate_session greeting_env guest_utterance "es-es" new_world))
   = bus new_world).
Proof.
  assert (Hd : event_session_id hello_utterance = "default") by reflexivity.
  assert (He : expiry_deadline (read_session greeting_env "default" expired_world)
                 < clock expired_world) by (vm_compute; reflexivity).
  assert (Hu : clock unexpired_world
                 <= expiry_deadline (read_session greeting_env "default" unexpired_world))
    by (vm_compute; discriminate).
  assert (Hl : "en-us" = lang (read_session greeting_env "default" unexpired_world))
    by (vm_compute; reflexivity).
  assert (Hg : event_session_id guest_utterance ≠ "default")
    by (vm_compute; discriminate).
  destruct (validate_session_cases greeting_env hello_utterance "es-es" expired_world)
    as (_ & Hexp & _).
  destruct (validate_session_cases greeting_env hello_utterance "en-us" unexpired_world)
    as (_ & _ & Hun & _).
  destruct (validate_session_cases greeting_env guest_utterance "es-es" new_world)
    as (_ & _ & _ & Hguest).
  split; [|split].
  - split; [exact Hd|]. split; [exact He|]. split; [vm_compute; reflexivity|].
    destruct (Hexp Hd He) as (_ & Ha & Hb). split; [exact Ha|exact Hb].
  - split; [exact Hu|]. split; [exact Hl|]. exact (Hun Hd Hu Hl).
  - split; [exact Hg|]. exact (Hguest Hg).
Defined.

(** ** The utterance handler *)


Lemma match_publishes_intent_event_witness :
  (utterance_setup greeting_env hello_utterance short_world
   = (inr (stamped_hello, "en-us", hello_utterances, "default"),
      world_with_default short_pipeline 600 0 []) ∧
   match_utterance greeting_env "default" None hello_utterances "en-us" stamped_hello
     (world_with_default short_pipeline 600 0 [])
   = (inr (Some hello_match),
      mkWorld [] [] (sessions (world_with_default short_pipeline 600 0 [])) 0
        [(converse_with_skills, Declined); (adapt_match_intent, Matched hello_match)]
        tt)) ∧
  fst (handle_utterance greeting_env hello_utterance short_world)
  = inr (Some (Some hello_match,
               <["skill_id" := VStr "skill"]> (context stamped_hello))) ∧
  published (snd (handle_utterance greeting_env hello_utterance short_world))
  = published short_world ++
    [mkMessage "skill:HelloIntent"
       (intent_data hello_match ∪
        <["utterance" := VStr "hello"]> (data stamped_hello))
       (reply_context greeting_env
          (<["skill_id" := VStr "skill"]> (context stamped_hello)))] ∧
  (forall k, k ≠ "utterances" -> data stamped_hello !! k = data hello_utterance !! k).
Proof.
  assert (H1 : utterance_setup greeting_env hello_utterance short_world
   = (inr (stamped_hello, "en-us", hello_utterances, "default"),
      world_with_default short_pipeline 600 0 [])) by (vm_compute; reflexivity).
  assert (H2 : match_utterance greeting_env "default" None hello_utterances "en-us"
     stamped_hello (world_with_default short_pipeline 600 0 [])
   = (inr (Some hello_match),
      mkWorld [] [] (sessions (world_with_default short_pipeline 600 0 [])) 0
        [(converse_with_skills, Declined); (adapt_match_intent, Matched hello_match)]
        tt)) by (vm_compute; reflexivity).
  split; [split; assumption|].
  exact (match_publishes_intent_event greeting_env hello_utterance short_world
           _ _ _ _ _ _ _ H1 H2).
Defined.

Lemma stage_fault_witness :
  (calls (snd (handle_utterance faulty_env hello_utterance short_world))
   = calls short_world ++
     [(converse_with_skills, Declined); (adapt_match_intent, Faulted (Raised "adapt"))] ∧
   (adapt_match_intent, Faulted (Raised "adapt")) ∈
     [(converse_with_skills, Declined); (adapt_match_intent, Faulted (Raised "adapt"))]) ∧
  fst (handle_utterance faulty_env hello_utterance short_world) = inr None ∧
  (∃ l', log (snd (handle_utterance faulty_env hello_utterance short_world))
         = l' ++ [LogException (Raised "adapt")]) ∧
  published (snd (handle_utterance faulty_env hello_utterance short_world))
  = published short_world.
Proof.
  assert (H1 : calls (snd (handle_utterance faulty_env hello_utterance short_world))
   = calls short_world ++
     [(converse_with_skills, Declined); (adapt_match_intent, Faulted (Raised "adapt"))])
    by (vm_compute; reflexivity).
  assert (H2 : (adapt_match_intent, Faulted (Raised "adapt")) ∈
     [(converse_with_skills, Declined); (adapt_match_intent, Faulted (Raised "adapt"))])
    by (apply list_elem_of_In; simpl; right; left; reflexivity).
  split; [split; assumption|].
  exact (stage_fault_caught_without_notification faulty_env hello_utterance short_world
           _ _ _ H1 H2).
Defined.

Lemma handle_utterance_never_raises_witness :
  (utterance_setup_of clumsy_callees hello_utterance short_world
   = (inr (stamped_hello, "en-us", hello_utterances, "default"), validated_world) ∧
   match_utterance_of clumsy_callees "default" hello_utterances "en-us" stamped_hello
     validated_world
   = (inr (Some hello_match), greeted_world) ∧
   emit_result_of clumsy_callees (Some hello_match) stamped_hello "default"
     (logged LogMatchingTook greeted_world)
   = (inl (Raised "converse"), logged LogMatchingTook greeted_world)) ∧
  handle_utterance_of clumsy_callees hello_utterance short_world
  = (inr None,
     logged (LogException (Raised "converse")) (logged LogMatchingTook greeted_world)).
Proof.
  assert (H1 : utterance_setup_of clumsy_callees hello_utterance short_world
   = (inr (stamped_hello, "en-us", hello_utterances, "default"), validated_world))
    by (vm_compute; reflexivity).
  assert (H2 : match_utterance_of clumsy_callees "default" hello_utterances "en-us"
                 stamped_hello validated_world
   = (inr (Some hello_match), greeted_world)) by (vm_compute; reflexivity).
  assert (H3 : emit_result_of clumsy_callees (Some hello_match) stamped_hello "default"
     (logged LogMatchingTook greeted_world)
   = (inl (Raised "converse"), logged LogMatchingTook greeted_world))
    by (vm_compute; reflexivity).
  split; [repeat split; assumption|].
  exact (proj1 (proj2 (proj1 (proj2 (proj2 (proj2 (proj2
    (handle_utterance_never_raises greeting_env clumsy_callees hello_utterance
       short_world))))) _ _ _ _ _ H1) _ _ H2) _ _ H3).
Defined.

(** ** Context handlers *)

Lemma context_round_trip_witness :
  (data kitchen_add !! "context" = Some (VStr "kitchen") ∧
   data kitchen_add !! "word" = Some (VStr "there") ∧
   data kitchen_remove !! "context" = Some (VStr "kitchen") ∧
   event_session_id kitchen_remove = event_session_id kitchen_add ∧
   context_stack (read_session greeting_env (event_session_id kitchen_add) new_world)
   = []) ∧
  (fst ((handle_add_context greeting_env kitchen_add ≫= fun _ =>
         handle_remove_context greeting_env kitchen_remove) new_world) = inr tt ∧
   context_stack
     (read_session greeting_env (event_session_id kitchen_add)
        (snd ((handle_add_context greeting_env kitchen_add ≫= fun _ =>
               handle_remove_context greeting_env kitchen_remove) new_world))) = []) ∧
  (event_session_id bedroom_add = event_session_id kitchen_add ∧
   event_session_id clear_all = event_session_id kitchen_add) ∧
  context_stack
    (read_session greeting_env (event_session_id kitchen_add)
       (snd ((handle_add_context greeting_env kitchen_add ≫= fun _ =>
              handle_add_context greeting_env bedroom_add ≫= fun _ =>
              handle_clear_context greeting_env clear_all) new_world))) = [] ∧
  context_stack
    (read_session greeting_env (event_session_id kitchen_add)
       (snd ((handle_add_context greeting_env bedroom_add ≫= fun _ =>
              handle_add_context greeting_env kitchen_add ≫= fun _ =>
              handle_clear_context greeting_env clear_all) new_world))) = [].
Proof.
  assert (H1 : data kitchen_add !! "context" = Some (VStr "kitchen"))
    by (vm_compute; reflexivity).
  assert (H2 : data kitchen_add !! "word" = Some (VStr "there"))
    by (vm_compute; reflexivity).
  assert (H3 : data kitchen_remove !! "context" = Some (VStr "kitchen"))
    by (vm_compute; reflexivity).
  assert (H4 : event_session_id kitchen_remove = event_session_id kitchen_add)
    by reflexivity.
  assert (H5 : context_stack
                 (read_session greeting_env (event_session_id kitchen_add) new_world)
               = []) by reflexivity.
  assert (H6 : event_session_id bedroom_add = event_session_id kitchen_add)
    by reflexivity.
  assert (H7 : event_session_id clear_all = event_session_id kitchen_add)
    by reflexivity.
  destruct (context_round_trip greeting_env new_world) as [Hremove Hclear].
  split; [repeat split; assumption|].
  split; [exact (Hremove kitchen_add kitchen_remove H1 H2 H3 H4 H5)|].
  split; [split; assumption|].
  destruct (Hclear kitchen_add bedroom_add clear_all H6 H7) as [[_ H12] [_ H21]].
  split; [exact H12|exact H21].
Defined.

(** ** Runs that refute the statements set aside above *)

(** A stage raises: the handler returns [None] and has published nothing. *)
Lemma stage_fault_counterexample :
  calls (snd (handle_utterance faulty_env hello_utterance short_world))
  = [(converse_with_skills, Declined); (adapt_match_intent, Faulted (Raised "adapt"))] ∧
  fst (handle_utterance faulty_env hello_utterance short_world) = inr None ∧
  published (snd (handle_utterance faulty_env hello_utterance short_world)) = [] ∧
  ¬ stage_fault_notifies faulty_env hello_utterance short_world.
Proof.
  assert (Hc : calls (snd (handle_utterance faulty_env hello_utterance short_world))
    = [(converse_with_skills, Declined); (adapt_match_intent, Faulted (Raised "adapt"))])
    by (vm_compute; reflexivity).
  split; [exact Hc|]. split; [vm_compute; reflexivity|].
  split; [vm_compute; reflexivity|].
  intros H.
  destruct (H [(converse_with_skills, Declined);
               (adapt_match_intent, Faulted (Raised "adapt"))]
              adapt_match_intent (Raised "adapt") Hc
              ltac:(apply list_elem_of_In; simpl; right; left; reflexivity))
    as (_ & _ & ctx & Hp).
  vm_compute in Hp. discriminate Hp.
Qed.

(** A match whose intent type is the empty string: the handler returns the
    match and publishes nothing. *)
Lemma intent_event_counterexample :
  intent_type untyped_match = Some "" ∧
  fst (handle_utterance untyped_env hello_utterance short_world)
  = inr (Some (Some untyped_match, context stamped_hello)) ∧
  published (snd (handle_utterance untyped_env hello_utterance short_world)) = [] ∧
  ¬ typed_match_publishes untyped_env hello_utterance short_world.
Proof.
  assert (Hr : fst (handle_utterance untyped_env hello_utterance short_world)
               = inr (Some (Some untyped_match, context stamped_hello)))
    by (vm_compute; reflexivity).
  split; [reflexivity|]. split; [exact Hr|]. split; [vm_compute; reflexivity|].
  intros H. destruct (H untyped_match (context stamped_hello) Hr) as (ev & Hp & _).
  vm_compute in Hp. discriminate Hp.
Qed.

(** The locale setup raises: the handler logs the failure, goes on and returns
    the match. *)
Lemma locale_fault_counterexample :
  (forall l x, fst (setup_locale no_locale_env l x) = inl (Raised "locale")) ∧
  fst (handle_utterance no_locale_env hello_utterance short_world)
  = inr (Some (Some hello_match,
               <["skill_id" := VStr "skill"]> (context stamped_hello))) ∧
  log (snd (handle_utterance no_locale_env hello_utterance short_world))
  = [LogLocaleFailure "en-us"; LogMatchingTook] ∧
  ¬ locale_fault_returns_none no_locale_env hello_utterance short_world.
Proof.
  assert (Hl : forall l x, fst (setup_locale no_locale_env l x) = inl (Raised "locale"))
    by (intros; reflexivity).
  split; [exact Hl|]. split; [vm_compute; reflexivity|].
  split; [vm_compute; reflexivity|].
  assert (Ht : ∃ m w1, _handle_transformers no_locale_env hello_utterance short_world
                       = (inr m, w1))
    by (exists (set_context "lang" (VStr "en-us") hello_utterance), short_world;
        vm_compute; reflexivity).
  intros H. destruct (H (Raised "locale") Hl Ht) as [Hr _].
  vm_compute in Hr. discriminate Hr.
Qed.

(** The word [0]: the entity is keyed by the empty string, not by "0". *)
Lemma add_context_counterexample :
  data zero_word_add !! "word" = Some (VInt 0) ∧
  py_str greeting_env (VInt 0) = "0" ∧
  key (add_context_entity greeting_env zero_word_add) = "" ∧
  key (entity_with_coerced_word greeting_env zero_word_add) = "0" ∧
  add_context_entity greeting_env zero_word_add
  ≠ entity_with_coerced_word greeting_env zero_word_add.
Proof.
  split; [vm_compute; reflexivity|]. split; [vm_compute; reflexivity|].
  split; [vm_compute; reflexivity|]. split; [vm_compute; reflexivity|].
  intros H. apply (f_equal key) in H. vm_compute in H. discriminate H.
Qed.

(** ** Sample runs of the intents API and of the registries *)

Lemma update_keyword_message_witness :
  (_is_old_style_keyword_message old_style_keyword = true ∧
   data old_style_keyword !! "end" = Some (VStr "HelloKeyword")) ∧
  fst (_update_keyword_message old_style_keyword) = inr tt ∧
  msg_type (snd (_update_keyword_message old_style_keyword))
  = msg_type old_style_keyword ∧
  context (snd (_update_keyword_message old_style_keyword))
  = context old_style_keyword ∧
  data (snd (_update_keyword_message old_style_keyword)) !! "entity_value"
  = data old_style_keyword !! "start" ∧
  data (snd (_update_keyword_message old_style_keyword)) !! "entity_type"
  = Some (VStr "HelloKeyword") ∧
  (forall k, k ≠ "entity_value" -> k ≠ "entity_type" ->
     data (snd (_update_keyword_message old_style_keyword)) !! k
     = data old_style_keyword !! k) ∧
  _is_old_style_keyword_message (snd (_update_keyword_message old_style_keyword))
  = false.
Proof.
  assert (H1 : _is_old_style_keyword_message old_style_keyword = true)
    by (vm_compute; reflexivity).
  assert (H2 : data old_style_keyword !! "end" = Some (VStr "HelloKeyword"))
    by (vm_compute; reflexivity).
  split; [split; assumption|].
  exact (update_keyword_message_upgrades old_style_keyword _ H1 H2).
Defined.

Lemma register_vocab_without_end_witness :
  (_is_old_style_keyword_message old_style_without_end = true ∧
   data old_style_without_end !! "end" = None) ∧
  fst (handle_register_vocab silent_env sample_backends old_style_without_end
         empty_registry tt) = inl (KeyError "end") ∧
  registered_vocab
    (snd (fst (snd (handle_register_vocab silent_env sample_backends
                      old_style_without_end empty_registry tt))))
  = registered_vocab empty_registry.
Proof.
  assert (H1 : _is_old_style_keyword_message old_style_without_end = true)
    by (vm_compute; reflexivity).
  assert (H2 : data old_style_without_end !! "end" = None)
    by (vm_compute; reflexivity).
  split; [split; assumption|].
  destruct (register_vocab_old_style_without_end silent_env sample_backends
              old_style_without_end empty_registry tt H1 H2) as (Hr & _ & Hv & _).
  split; [exact Hr|exact Hv].
Defined.

Lemma vocab_manifest_witness :
  fst (handle_register_vocab silent_env sample_backends old_style_keyword
         empty_registry tt) = inr tt ∧
  fst (handle_vocab_manifest silent_env
         (snd (fst (snd (handle_register_vocab silent_env sample_backends
                           old_style_keyword empty_registry tt))))
         manifest_query new_world) = inr tt ∧
  published
    (snd (handle_vocab_manifest silent_env
            (snd (fst (snd (handle_register_vocab silent_env sample_backends
                              old_style_keyword empty_registry tt))))
            manifest_query new_world))
  = published new_world ++
    [mkMessage "intent.service.adapt.vocab.manifest"
       {[ "vocab" :=
            VList (map dict_value (registered_vocab empty_registry) ++
                   [dict_value
                      (data (fst (fst (snd (handle_register_vocab silent_env
                                              sample_backends old_style_keyword
                                              empty_registry tt)))))]) ]}
       (reply_context silent_env (context manifest_query))].
Proof.
  assert (H : fst (handle_register_vocab silent_env sample_backends old_style_keyword
                     empty_registry tt) = inr tt) by (vm_compute; reflexivity).
  split; [exact H|].
  exact (vocab_manifest_after_registration silent_env sample_backends
           old_style_keyword manifest_query empty_registry tt new_world H).
Defined.

Lemma skill_name_round_trip_witness :
  (data skill_announcement !! "id" = Some (VStr "skill-hello") ∧
   data skill_announcement !! "name" = Some (VStr "Hello") ∧
   key_of (VStr "skill-hello") = Some (KStr "skill-hello")) ∧
  fst (update_skill_name_dict skill_announcement empty_registry) = inr tt ∧
  get_skill_name (snd (update_skill_name_dict skill_announcement empty_registry))
                 (VStr "skill-hello") = inr (VStr "Hello").
Proof.
  assert (H1 : data skill_announcement !! "id" = Some (VStr "skill-hello"))
    by (vm_compute; reflexivity).
  assert (H2 : data skill_announcement !! "name" = Some (VStr "Hello"))
    by (vm_compute; reflexivity).
  assert (H3 : key_of (VStr "skill-hello") = Some (KStr "skill-hello")) by reflexivity.
  split; [repeat split; assumption|].
  destruct (skill_name_round_trip skill_announcement empty_registry _ _ _ H1 H2 H3)
    as (Hr & Hg & _).
  split; [exact Hr|exact Hg].
Defined.

Lemma get_intent_failure_witness :
  (data intent_query !! "utterance" = Some (VStr "hello") ∧
   resolve_stages silent_env
     (configured_stages get_intent_skips
        (pipeline (read_session silent_env (event_session_id intent_query)
                     short_world))) = inr [adapt_match_intent] ∧
   calls (snd (handle_get_intent silent_env intent_query short_world))
   = calls short_world ++ [(adapt_match_intent, Declined)] ∧
   Forall declined [(adapt_match_intent, Declined)]) ∧
  fst (handle_get_intent silent_env intent_query short_world) = inr tt ∧
  map fst [(adapt_match_intent, Declined)] = [adapt_match_intent] ∧
  bus (snd (handle_get_intent silent_env intent_query short_world))
  = bus short_world ++ [Emit (intent_reply silent_env intent_query VNone)].
Proof.
  assert (H1 : data intent_query !! "utterance" = Some (VStr "hello"))
    by (vm_compute; reflexivity).
  assert (H2 : resolve_stages silent_env
     (configured_stages get_intent_skips
        (pipeline (read_session silent_env (event_session_id intent_query)
                     short_world))) = inr [adapt_match_intent])
    by (vm_compute; reflexivity).
  assert (H3 : calls (snd (handle_get_intent silent_env intent_query short_world))
   = calls short_world ++ [(adapt_match_intent, Declined)])
    by (vm_compute; reflexivity).
  assert (H4 : Forall declined [(adapt_match_intent, Declined)])
    by (repeat constructor).
  split; [repeat split; assumption|].
  exact (get_intent_reports_failure silent_env intent_query _ short_world _ _
           H1 H2 H3 H4).
Defined.

Lemma get_intent_match_witness :
  calls (snd (handle_get_intent greeting_env intent_query short_world))
  = calls short_world ++ [] ++ [(adapt_match_intent, Matched hello_match)] ∧
  fst (handle_get_intent greeting_env intent_query short_world) = inr tt ∧
  ∃ d,
    bus (snd (handle_get_intent greeting_env intent_query short_world))
    = bus short_world ++ [Emit (intent_reply greeting_env intent_query (dict_value d))] ∧
    d !! "intent_name" = Some (VStr "skill:HelloIntent") ∧
    d !! "intent_service" = Some (VStr (intent_service hello_match)) ∧
    d !! "skill_id" = Some (str_or_none (skill_id hello_match)) ∧
    d !! "handler" = Some (VStr (matcher_name adapt_match_intent)) ∧
    (forall k, k ≠ "intent_name" -> k ≠ "intent_service" -> k ≠ "skill_id" ->
               k ≠ "handler" -> d !! k = intent_data hello_match !! k).
Proof.
  assert (H : calls (snd (handle_get_intent greeting_env intent_query short_world))
    = calls short_world ++ [] ++ [(adapt_match_intent, Matched hello_match)])
    by (vm_compute; reflexivity).
  split; [exact H|].
  exact (get_intent_reports_match greeting_env intent_query short_world _ _ _ H).
Defined.

Lemma get_adapt_witness :
  data intent_query !! "utterance" = Some (VStr "hello") ∧
  calls (snd (handle_get_adapt greeting_env intent_query new_world))
  = calls new_world ++ [(adapt_match_intent, Matched hello_match)] ∧
  sessions (snd (handle_get_adapt greeting_env intent_query new_world))
  = sessions new_world ∧
  fst (handle_get_adapt greeting_env intent_query new_world) = inr tt ∧
  bus (snd (handle_get_adapt greeting_env intent_query new_world))
  = bus new_world ++
    [Emit (mkMessage "intent.service.adapt.reply"
             {[ "intent" := dict_value (intent_data hello_match) ]}
             (reply_context greeting_env (context intent_query)))].
Proof.
  assert (H : data intent_query !! "utterance" = Some (VStr "hello"))
    by (vm_compute; reflexivity).
  split; [exact H|].
  destruct (get_adapt_asks_adapt_once greeting_env intent_query _ new_world H)
    as (Hc & _ & Hs & Hr & Hb).
  repeat split; assumption.
Defined.

Lemma get_padatious_witness :
  (data misspelt_query !! "utterance" = Some (VStr "turn on teh light") ∧
   fst (padacioso_calc_intent sample_backends (VStr "turn on teh light")
          (plugins new_world)) = inr None ∧
   value_eqb (dict_get_or (data misspelt_query) "norm_utt" (VStr "turn on teh light"))
             (VStr "turn on teh light") = false) ∧
  fst (handle_get_padatious silent_env sample_backends misspelt_query new_world)
  = inr tt ∧
  bus (snd (handle_get_padatious silent_env sample_backends misspelt_query new_world))
  = bus new_world ++
    [Emit (mkMessage "intent.service.padatious.reply"
             {[ "intent" := dict_value light_intent ]}
             (reply_context silent_env (context misspelt_query)))].
Proof.
  assert (H1 : data misspelt_query !! "utterance" = Some (VStr "turn on teh light"))
    by (vm_compute; reflexivity).
  assert (H2 : fst (padacioso_calc_intent sample_backends (VStr "turn on teh light")
          (plugins new_world)) = inr None) by reflexivity.
  assert (H3 : value_eqb (dict_get_or (data misspelt_query) "norm_utt"
                            (VStr "turn on teh light"))
                 (VStr "turn on teh light") = false) by (vm_compute; reflexivity).
  split; [repeat split; assumption|].
  destruct (get_padatious_tries_norm_last silent_env sample_backends misspelt_query
              _ new_world H1) as (_ & _ & Hnorm & _).
  destruct (Hnorm H2 H3) as [_ Hsecond].
  exact Hsecond.
Defined.

Lemma misconfigured_pipeline_witness :
  (utterance_setup greeting_env hello_utterance bogus_world
   = (inr (stamped_hello, "en-us", hello_utterances, "default"),
      world_with_default ["adapt"; "bogus"; "fallback_low"] 600 0 []) ∧
   "bogus" ∈ configured_stages []
               (pipeline (read_session greeting_env "default"
                  (world_with_default ["adapt"; "bogus"; "fallback_low"] 600 0 []))) ∧
   matchers greeting_env !! "bogus" = None) ∧
  ∃ k', matchers greeting_env !! k' = None ∧
        fst (handle_utterance greeting_env hello_utterance bogus_world) = inr None ∧
        (∃ l', log (snd (handle_utterance greeting_env hello_utterance bogus_world))
               = l' ++ [LogException (KeyError k')]) ∧
        calls (snd (handle_utterance greeting_env hello_utterance bogus_world))
        = calls bogus_world ∧
        published (snd (handle_utterance greeting_env hello_utterance bogus_world))
        = published bogus_world.
Proof.
  assert (H1 : utterance_setup greeting_env hello_utterance bogus_world
   = (inr (stamped_hello, "en-us", hello_utterances, "default"),
      world_with_default ["adapt"; "bogus"; "fallback_low"] 600 0 []))
    by (vm_compute; reflexivity).
  assert (H2 : "bogus" ∈ configured_stages []
               (pipeline (read_session greeting_env "default"
                  (world_with_default ["adapt"; "bogus"; "fallback_low"] 600 0 [])))).
  { vm_compute. apply list_elem_of_In. simpl. right; left; reflexivity. }
  assert (H3 : matchers greeting_env !! "bogus" = None) by (vm_compute; reflexivity).
  split; [repeat split; assumption|].
  exact (misconfigured_pipeline_drops_utterance greeting_env hello_utterance
           bogus_world _ _ _ _ _ _ H1 H2 H3).
Defined.

Lemma transformer_fault_witness :
  fst (_handle_transformers broken_transformer_env hello_utterance short_world)
  = inl (Raised "transformer") ∧
  fst (handle_utterance broken_transformer_env hello_utterance short_world) = inr None ∧
  (∃ l', log (snd (handle_utterance broken_transformer_env hello_utterance short_world))
         = l' ++ [LogException (Raised "transformer")]) ∧
  sessions (snd (handle_utterance broken_transformer_env hello_utterance short_world))
  = sessions short_world ∧
  calls (snd (handle_utterance broken_transformer_env hello_utterance short_world))
  = calls short_world ∧
  bus (snd (handle_utterance broken_transformer_env hello_utterance short_world))
  = bus short_world.
Proof.
  assert (H : fst (_handle_transformers broken_transformer_env hello_utterance
                     short_world) = inl (Raised "transformer")) by reflexivity.
  split; [exact H|].
  exact (transformer_fault_drops_utterance broken_transformer_env hello_utterance
           short_world _ H).
Defined.

Lemma handler_syncs_witness :
  utterance_setup greeting_env hello_utterance short_world
  = (inr (stamped_hello, "en-us", hello_utterances, "default"),
     world_with_default short_pipeline 600 0 []) ∧
  fst (handle_utterance greeting_env hello_utterance short_world)
  = inr (Some (Some hello_match,
               <["skill_id" := VStr "skill"]> (context stamped_hello))) ∧
  ∃ b, bus (snd (handle_utterance greeting_env hello_utterance short_world))
       = b ++ [SessionSync
                 (serialize greeting_env "default"
                    (read_session greeting_env "default"
                       (snd (handle_utterance greeting_env hello_utterance
                               short_world))))].
Proof.
  assert (H1 : utterance_setup greeting_env hello_utterance short_world
   = (inr (stamped_hello, "en-us", hello_utterances, "default"),
      world_with_default short_pipeline 600 0 [])) by (vm_compute; reflexivity).
  assert (H2 : fst (handle_utterance greeting_env hello_utterance short_world)
    = inr (Some (Some hello_match,
                 <["skill_id" := VStr "skill"]> (context stamped_hello))))
    by (vm_compute; reflexivity).
  split; [exact H1|]. split; [exact H2|].
  exact (proj2 (handler_syncs_default_session_only greeting_env hello_utterance
                  short_world _ _ _ _ _ H1) eq_refl _ H2).
Defined.

Lemma setup_hands_over_witness :
  utterance_setup greeting_env spanish_utterance short_world
  = (inr (set_context "session"
            (VDict [("session_id", VStr "default"); ("lang", VStr "es-es")])
            (set_context "lang" (VStr "en-us") spanish_utterance),
          "es-es", hello_utterances, "default"),
     mkWorld [SessionSync (VDict [("session_id", VStr "default"); ("lang", VStr "es-es")])]
             [LogReplacedLang "en-us" "stt_lang" "es-es"]
             {[ "default" := mkSession "es-es" [] [] short_pipeline 600 ]} 0 [] tt) ∧
  lang (read_session greeting_env "default"
          (mkWorld [SessionSync (VDict [("session_id", VStr "default");
                                        ("lang", VStr "es-es")])]
                   [LogReplacedLang "en-us" "stt_lang" "es-es"]
                   {[ "default" := mkSession "es-es" [] [] short_pipeline 600 ]}
                   0 [] tt)) = "es-es".
Proof.
  assert (H : utterance_setup greeting_env spanish_utterance short_world
  = (inr (set_context "session"
            (VDict [("session_id", VStr "default"); ("lang", VStr "es-es")])
            (set_context "lang" (VStr "en-us") spanish_utterance),
          "es-es", hello_utterances, "default"),
     mkWorld [SessionSync (VDict [("session_id", VStr "default"); ("lang", VStr "es-es")])]
             [LogReplacedLang "en-us" "stt_lang" "es-es"]
             {[ "default" := mkSession "es-es" [] [] short_pipeline 600 ]} 0 [] tt))
    by (vm_compute; reflexivity).
  split; [exact H|].
  exact (proj1 (proj2 (proj2 (setup_hands_over_validated_session greeting_env
                                spanish_utterance short_world _ _ _ _ _ H)))).
Defined.

(** Python's [==] on sample values: [True == 1], [0 == False], dicts whatever
    the order of their items, lists position by position, and no string equal
    to a number. *)
Example value_eqb_samples :
  value_eqb (VBool true) (VInt 1) = true ∧
  value_eqb (VInt 0) (VBool false) = true ∧
  value_eqb (VBool true) (VInt 2) = false ∧
  value_eqb (VDict [("a", VInt 1); ("b", VStr "x")])
            (VDict [("b", VStr "x"); ("a", VBool true)]) = true ∧
  value_eqb (VDict [("a", VInt 1)]) (VDict [("a", VInt 1); ("b", VInt 2)]) = false ∧
  value_eqb (VList [VInt 1; VInt 2]) (VList [VInt 2; VInt 1]) = false ∧
  value_eqb (VStr "1") (VInt 1) = false.
Proof. repeat split. Qed.

(** A padatious query whose [norm_utt], [True], equals its utterance, [1]:
    padacioso, which would have known [True], is asked about [1] only and the
    answer carries no intent. *)
Example get_padatious_equal_norm :
  padacioso_calc_intent strict_backends (VBool true) tt = (inr (Some light_intent), tt) ∧
  handle_get_padatious greeting_env strict_backends numeric_query new_world
  = (inr tt,
     mkWorld [Emit (mkMessage "intent.service.padatious.reply" {[ "intent" := VNone ]} ∅)]
             [] ∅ 0 [] tt).
Proof. split; vm_compute; reflexivity. Qed.
